(** * Verification of [src/agent/agent.py] (weather agent)

    Shallow embedding of the three pieces of logic the module owns:
    - [_is_rate_limit_error], the heuristic rate-limit classifier;
    - [get_weather], the HTTP-backed weather lookup tool;
    - [call_agent_async], the per-query event-draining loop;
    - the session/runner set-up, [run_conversation], [main] and the
      tasks scheduled at import.

    Python [str] values are sequences of Unicode code points ([pystr]);
    exceptions are records carrying the concrete type name, the MRO and
    [str(exc)].  Code that raises is modelled in a small writer/exception
    monad whose log records every outbound HTTP request. *)

From Stdlib Require Import List ZArith String Ascii Bool Lia.
Import ListNotations.
Set Warnings "-register-all".
Open Scope Z_scope.

(* ------------------------------------------------------------------ *)
(** ** Python values *)

Module Py.

(** A Python [str]: a sequence of code points (0 .. 0x10FFFF, lone
    surrogates included, as CPython allows). *)
Definition pystr := list Z.

(** A source literal written in ASCII. *)
Definition lit (s : string) : pystr :=
  map (fun a => Z.of_nat (nat_of_ascii a)) (list_ascii_of_string s).

Definition pystr_eqb (a b : pystr) : bool :=
  if list_eq_dec Z.eq_dec a b then true else false.

(** [needle in hay] for two [str]s. *)
Fixpoint starts_with (needle hay : pystr) : bool :=
  match needle, hay with
  | [], _ => true
  | c :: n, d :: h => (c =? d) && starts_with n h
  | _ :: _, [] => false
  end.

Fixpoint contains (needle hay : pystr) : bool :=
  starts_with needle hay ||
  match hay with
  | [] => false
  | _ :: h => contains needle h
  end.

(** [str.isspace] for one code point (CPython's [_PyUnicode_IsWhitespace]). *)
Definition is_space (c : Z) : bool :=
  ((9 <=? c) && (c <=? 13)) || ((28 <=? c) && (c <=? 32)) ||
  (c =? 133) || (c =? 160) || (c =? 5760) ||
  ((8192 <=? c) && (c <=? 8202)) || (c =? 8232) || (c =? 8233) ||
  (c =? 8239) || (c =? 8287) || (c =? 12288).

Fixpoint lstrip (s : pystr) : pystr :=
  match s with
  | c :: t => if is_space c then lstrip t else s
  | [] => []
  end.

(** [str.strip()] with no argument. *)
Definition strip (s : pystr) : pystr := rev (lstrip (rev (lstrip s))).

(** Truthiness of a [str]: non-empty. *)
Definition truthy (s : pystr) : bool :=
  match s with [] => false | _ => true end.

(** Decimal rendering of an [int], as [str(n)]. *)
Fixpoint digits_pos (fuel : nat) (n : Z) (acc : pystr) : pystr :=
  match fuel with
  | O => acc
  | S f => if n <? 10 then (48 + n) :: acc
           else digits_pos f (n / 10) ((48 + n mod 10) :: acc)
  end.

Definition str_int (n : Z) : pystr :=
  if n <? 0 then 45 :: digits_pos (Z.to_nat (Z.log2_up (- n) + 1)) (- n) []
  else digits_pos (Z.to_nat (Z.log2_up n + 1)) n [].

(** A Python exception object: [type(exc).__name__], the names of the
    classes of its MRO, and [str(exc)]. *)
Record exc := mkExc {
  exc_type : pystr;
  exc_mro : list pystr;
  exc_str : pystr
}.

(** An instance of a builtin exception class [name] whose bases (below
    [Exception]) are [bases]; MRO entries are qualified class names. *)
Definition mk_builtin_exc (name : string) (bases : list string) (msg : pystr) : exc :=
  mkExc (lit name)
    (map (fun n => lit ("builtins." ++ n))
       (name :: bases ++ ["Exception"; "BaseException"; "object"]))%string
    msg.

(** [isinstance(e, cls)] for a class identified by its qualified name. *)
Definition isinstance (e : exc) (cls : pystr) : bool :=
  existsb (pystr_eqb cls) (exc_mro e).

(** The value of a decoded JSON document ([json.loads]).  A [float] is
    identified by its [repr]. *)
Inductive json :=
| JNull
| JBool (b : bool)
| JInt (z : Z)
| JFloat (r : pystr)
| JStr (s : pystr)
| JArr (l : list json)
| JObj (kvs : list (pystr * json)).

(** [type(v).__name__] of a decoded JSON value. *)
Definition type_name (v : json) : pystr :=
  lit match v with
      | JNull => "NoneType" | JBool _ => "bool" | JInt _ => "int"
      | JFloat _ => "float" | JStr _ => "str" | JArr _ => "list"
      | JObj _ => "dict"
      end.

End Py.

(* ------------------------------------------------------------------ *)
(** ** [_is_rate_limit_error] (agent.py, lines 17-39) *)

Module RateLimit.
Import Py.

(** What [import litellm] does in the running interpreter: it fails, or it
    yields a module whose attribute [RateLimitError] is a class (given by
    its qualified name) or is missing ([getattr(..., None)]). *)
Inductive litellm_env :=
| LitellmMissing
| LitellmPresent (rate_limit_err : option pystr).

Definition RateLimit : pystr := lit "RateLimit".

Definition _is_rate_limit_error (env : litellm_env) (e : option exc) : bool :=
  match e with
  | None => false                                   (* if exc is None *)
  | Some exc =>
      let tname := exc_type exc in
      if contains RateLimit tname || contains RateLimit (exc_str exc)
      then true
      else
        match env with
        | LitellmMissing => false                   (* except Exception: pass *)
        | LitellmPresent None => false              (* RateLimitErr is None *)
        | LitellmPresent (Some cls) => isinstance exc cls
        end
  end.

(** [ValueError("timeout")]. *)
Definition value_error_timeout : exc :=
  mk_builtin_exc "ValueError" [] (lit "timeout").

(** The class [litellm.RateLimitError] as shipped by litellm. *)
Definition litellm_RateLimitError : pystr :=
  lit "litellm.exceptions.RateLimitError".

End RateLimit.

(* ------------------------------------------------------------------ *)
(** ** [urllib.parse.quote] (CPython's [Lib/urllib/parse.py]) *)

Module Quote.
Import Py.

Definition hex_digit_lower (n : Z) : Z := if n <? 10 then 48 + n else 87 + n.
Definition hex_digit_upper (n : Z) : Z := if n <? 10 then 48 + n else 55 + n.

Fixpoint hex_lower (width : nat) (n : Z) : pystr :=
  match width with
  | O => []
  | S w => hex_lower w (n / 16) ++ [hex_digit_lower (n mod 16)]
  end.

Definition is_surrogate (c : Z) : bool := (55296 <=? c) && (c <=? 57343).

(** UTF-8 bytes of one non-surrogate code point. *)
Definition utf8_char (c : Z) : list Z :=
  if c <? 128 then [c]
  else if c <? 2048 then [192 + c / 64; 128 + c mod 64]
  else if c <? 65536 then [224 + c / 4096; 128 + (c / 64) mod 64; 128 + c mod 64]
  else [240 + c / 262144; 128 + (c / 4096) mod 64;
        128 + (c / 64) mod 64; 128 + c mod 64].

(** How [UnicodeEncodeError.__str__] prints one character. *)
Definition escape_char (c : Z) : pystr :=
  if c <=? 255 then lit "\x" ++ hex_lower 2 c
  else if c <=? 65535 then lit "\u" ++ hex_lower 4 c
  else lit "\U" ++ hex_lower 8 c.

(** Number of consecutive surrogates at the head of [s] (the strict
    handler reports the whole run). *)
Fixpoint surrogate_run (s : pystr) : nat :=
  match s with
  | c :: t => if is_surrogate c then S (surrogate_run t) else O
  | [] => O
  end.

Definition unicode_encode_error (c : Z) (start : Z) (run : nat) : exc :=
  mk_builtin_exc "UnicodeEncodeError" ["UnicodeError"; "ValueError"]%string
    (if Nat.eqb run 1 then
       lit "'utf-8' codec can't encode character '" ++ escape_char c ++
       lit "' in position " ++ str_int start ++ lit ": surrogates not allowed"
     else
       lit "'utf-8' codec can't encode characters in position " ++ str_int start ++
       lit "-" ++ str_int (start + Z.of_nat run - 1) ++
       lit ": surrogates not allowed").

(** [s.encode("utf-8", "strict")]; [pos] is the index of the head of [s]. *)
Fixpoint encode_utf8 (pos : Z) (s : pystr) : exc + list Z :=
  match s with
  | [] => inr []
  | c :: t =>
      if is_surrogate c then inl (unicode_encode_error c pos (surrogate_run s))
      else match encode_utf8 (pos + 1) t with
           | inl e => inl e
           | inr bs => inr (utf8_char c ++ bs)
           end
  end.

(** [_ALWAYS_SAFE] together with the default [safe='/']. *)
Definition quote_safe (b : Z) : bool :=
  ((65 <=? b) && (b <=? 90)) || ((97 <=? b) && (b <=? 122)) ||
  ((48 <=? b) && (b <=? 57)) ||
  (b =? 95) || (b =? 46) || (b =? 45) || (b =? 126) || (b =? 47).

(** [quote_from_bytes]: safe bytes are kept, others become [%XX]. *)
Definition quote_from_bytes (bs : list Z) : pystr :=
  flat_map (fun b => if quote_safe b then [b]
                     else [37; hex_digit_upper (b / 16); hex_digit_upper (b mod 16)])
    bs.

(** [urllib.parse.quote(string)] with the default arguments. *)
Definition quote (s : pystr) : exc + pystr :=
  match s with
  | [] => inr s
  | _ => match encode_utf8 0 s with
         | inl e => inl e
         | inr bs => inr (quote_from_bytes bs)
         end
  end.

End Quote.

(* ------------------------------------------------------------------ *)
(** ** [get_weather] (agent.py, lines 45-86) *)

Module Weather.
Import Py.

(** One outbound HTTP request: [urlopen(url, timeout=...)]. *)
Definition request := (pystr * Z)%type.

(** Writer/exception monad: a computation either raises or returns, and
    logs the HTTP requests it issued, in order. *)
Definition M (A : Type) := ((exc + A) * list request)%type.

Definition ret {A} (a : A) : M A := (inr a, []).
Definition raise {A} (e : exc) : M A := (inl e, []).
Definition lift {A} (r : exc + A) : M A := (r, []).

Definition bind {A B} (m : M A) (f : A -> M B) : M B :=
  match m with
  | (inl e, l) => (inl e, l)
  | (inr a, l) => let (r, l') := f a in (r, l ++ l')
  end.

(** [try: m  except Exception as e: h(e)]. *)
Definition try_except {A} (m : M A) (h : exc -> M A) : M A :=
  match m with
  | (inl e, l) => let (r, l') := h e in (r, l ++ l')
  | ok => ok
  end.

Notation "x <- m ;; k" := (bind m (fun x => k))
  (at level 61, m at next level, right associativity).

(** The object [urlopen] hands back: its [status] attribute
    ([getattr(response, "status", None)]) and what [response.read()] does. *)
Record Response := mkResponse {
  status : option Z;
  read : exc + list Z
}.

(** The network: what [urlopen(url, timeout=t)] does. *)
Definition Net := pystr -> Z -> exc + Response.

Definition urlopen (net : Net) (url : pystr) (timeout : Z) : M Response :=
  (net url timeout, [(url, timeout)]).

(** Values stored in the dictionaries [get_weather] returns. *)
Inductive pyval :=
| VStr (s : pystr)
| VJson (j : json).

Definition dict := list (pystr * pyval).

Definition error_dict (msg : pystr) : dict :=
  [(lit "status", VStr (lit "error")); (lit "error_message", VStr msg)].

Definition success_dict (report : pystr) (data : json) : dict :=
  [(lit "status", VStr (lit "success")); (lit "report", VStr report);
   (lit "data", VJson data)].

Definition blank_city_msg : pystr := lit "City must be non-empty string.".

Definition fetch_error_msg (cause : pystr) : pystr :=
  lit "Error fetching weather data: " ++ cause ++ lit ".".

Definition parse_error_msg (cause : pystr) : pystr :=
  lit "Error parsing weather data: " ++ cause ++ lit ".".

(** [f"https://wttr.in/{encoded_city}?format=j1"] *)
Definition weather_url (encoded_city : pystr) : pystr :=
  lit "https://wttr.in/" ++ encoded_city ++ lit "?format=j1".

(** Lookup in a dict decoded by [json.loads] (the last duplicate wins). *)
Definition dict_get (kvs : list (pystr * json)) (k : pystr) : option json :=
  option_map snd (find (fun kv => pystr_eqb (fst kv) k) (rev kvs)).

(** [d.get(k, default)] on a decoded dict. *)
Definition get_or (kvs : list (pystr * json)) (k : pystr) (default : json) : json :=
  match dict_get kvs k with Some v => v | None => default end.

(** [o.get(k, default)] on a decoded JSON value. *)
Definition py_get (o : json) (k : pystr) (default : json) : exc + json :=
  match o with
  | JObj kvs => inr (get_or kvs k default)
  | _ => inl (mk_builtin_exc "AttributeError" []
                (lit "'" ++ type_name o ++ lit "' object has no attribute 'get'"))
  end.

(** [o[0]] on a decoded JSON value. *)
Definition py_index0 (o : json) : exc + json :=
  match o with
  | JArr (x :: _) => inr x
  | JArr [] => inl (mk_builtin_exc "IndexError" ["LookupError"]%string
                      (lit "list index out of range"))
  | JStr (c :: _) => inr (JStr [c])
  | JStr [] => inl (mk_builtin_exc "IndexError" ["LookupError"]%string
                      (lit "string index out of range"))
  | JObj _ => inl (mk_builtin_exc "KeyError" ["LookupError"]%string (lit "0"))
  | _ => inl (mk_builtin_exc "TypeError" []
                (lit "'" ++ type_name o ++ lit "' object is not subscriptable"))
  end.

Section GetWeather.

(** The CPython library functions [get_weather] calls on the fetched body:
    [bytes.decode("utf-8")], [json.loads] and [str()] (used by the
    f-string) on a decoded value.  Everything below holds for any of them. *)
Variable decode_utf8 : list Z -> exc + pystr.
Variable json_loads : pystr -> exc + json.
Variable str_json : json -> pystr.

(** The report f-string of line 81. *)
Definition weather_report (city : pystr) (desc temp_c feels_like_c humidity : json)
  : pystr :=
  lit "Weather in " ++ city ++ lit " is " ++ str_json desc ++
  lit ", temperature " ++ str_json temp_c ++ [176] ++
  lit "c (feels like " ++ str_json feels_like_c ++ [176] ++
  lit "c), humidity " ++ str_json humidity ++ lit "%.".

(** Lines 67-68: read, decode, parse. *)
Definition read_body (response : Response) : M json :=
  raw <- lift (read response) ;;
  body <- lift (decode_utf8 raw) ;;
  lift (json_loads body).

(** Lines 62-70.  [inl d]: the function returns [d]; [inr data]: the
    decoded body, execution continues after the [try]. *)
Definition fetch (net : Net) (url : pystr) : M (dict + json) :=
  try_except
    (response <- urlopen net url 10 ;;
     match status response with
     | Some st =>
         if negb (st =? 200) then ret (inl (error_dict (fetch_error_msg (str_int st))))
         else data <- read_body response ;; ret (inr data)
     | None => data <- read_body response ;; ret (inr data)
     end)
    (fun e => ret (inl (error_dict (fetch_error_msg (exc_str e))))).

(** Lines 73-86. *)
Definition parse (city : pystr) (data : json) : M dict :=
  try_except
    (cc <- lift (py_get data (lit "current_condition") (JArr [])) ;;
     current <- lift (py_index0 cc) ;;
     temp_c <- lift (py_get current (lit "temp_C") JNull) ;;
     wd <- lift (py_get current (lit "weatherDesc") (JArr [JObj []])) ;;
     wd0 <- lift (py_index0 wd) ;;
     desc <- lift (py_get wd0 (lit "value") JNull) ;;
     humidity <- lift (py_get current (lit "humidity") JNull) ;;
     feels_like_c <- lift (py_get current (lit "feelslike_C") JNull) ;;
     ret (success_dict (weather_report city desc temp_c feels_like_c humidity) data))
    (fun e => ret (error_dict (parse_error_msg (exc_str e)))).

Definition get_weather (net : Net) (city : pystr) : M dict :=
  if negb (truthy city) || negb (truthy (strip city)) then
    ret (error_dict blank_city_msg)
  else
    encoded_city <- lift (Quote.quote city) ;;
    r <- fetch net (weather_url encoded_city) ;;
    match r with
    | inl d => ret d
    | inr data => parse city data
    end.

End GetWeather.

(** The shape of a body from which the report can be built, in the
    spec's terms: a JSON object whose [current_condition] (default [[]]) is
    a list whose first element is an object, whose [weatherDesc] (default
    [[{}]]) is a list whose first element is an object. *)
Definition extractable (data : json) : Prop :=
  exists kvs cur wd rest1 rest2,
    data = JObj kvs /\
    get_or kvs (lit "current_condition") (JArr []) = JArr (JObj cur :: rest1) /\
    get_or cur (lit "weatherDesc") (JArr [JObj []]) = JArr (JObj wd :: rest2).

End Weather.

(* ------------------------------------------------------------------ *)
(** ** [call_agent_async] (agent.py, lines 104-124) *)

Module Driver.
Import Py.

(** The fields of the ADK objects the loop reads ([google.genai.types]
    and [google.adk.events]); [None] is Python's [None]. *)
Record Part := mkPart { text : option pystr }.

Record Content := mkContent {
  role : option pystr;
  parts : option (list Part)
}.

Record EventActions := mkActions { escalate : option bool }.

Record Event := mkEvent {
  is_final_response : bool;          (* what [event.is_final_response()] returns *)
  content : option Content;
  actions : option EventActions;
  error_message : option pystr
}.

(** [runner.run_async(user_id=..., session_id=..., new_message=...)]: the
    events the runner yields for the turn, in order. *)
Definition Runner := pystr -> pystr -> Content -> list Event.

Definition no_final_response : pystr := lit "Agent did not produce a final response.".
Definition no_specific_message : pystr := lit "No specific message.".

(** [f"{x}"] for a value that is a [str] or [None]. *)
Definition fmt_opt (x : option pystr) : pystr :=
  match x with Some s => s | None => lit "None" end.

(** [event.content and event.content.parts] (truthy: a non-empty list). *)
Definition first_part (ev : Event) : option Part :=
  match content ev with
  | Some c => match parts c with Some (p :: _) => Some p | _ => None end
  | None => None
  end.

(** [event.actions and event.actions.escalate] *)
Definition escalated (ev : Event) : bool :=
  match actions ev with
  | Some a => match escalate a with Some true => true | _ => false end
  | None => false
  end.

(** [event.error_message or 'No specific message.'] *)
Definition message_or_default (m : option pystr) : pystr :=
  match m with
  | Some s => if truthy s then s else no_specific_message
  | None => no_specific_message
  end.

(** Lines 118-121, on the final event. *)
Definition resolve (ev : Event) (final_response_text : option pystr) : option pystr :=
  match first_part ev with
  | Some p => text p
  | None =>
      if escalated ev then
        Some (lit "Agent escalated: " ++ message_or_default (error_message ev))
      else final_response_text
  end.

(** The [async for] of lines 115-122.  [events] is what the generator
    would yield; the result is [final_response_text] after the loop and the
    number of [__anext__] requests the loop made (the last request of an
    exhausted generator is the one answered by [StopAsyncIteration]). *)
Fixpoint drain (events : list Event) (final_response_text : option pystr)
  : option pystr * nat :=
  match events with
  | [] => (final_response_text, 1%nat)
  | ev :: rest =>
      if is_final_response ev then (resolve ev final_response_text, 1%nat)
      else let (t, n) := drain rest final_response_text in (t, S n)
  end.

Record Turn := mkTurn {
  stdout : list pystr;   (* lines printed by the coroutine (it returns None) *)
  anext_calls : nat      (* events requested from the runner's generator *)
}.

Definition start_line (query : pystr) : pystr :=
  lit "--- Agent interaction started for query: '" ++ query ++ lit "' ---".

Definition response_line (final_response_text : option pystr) : pystr :=
  lit "<<< Agent response: " ++ fmt_opt final_response_text.

(** [types.Content(role='user', parts=[types.Part(text=query)])] *)
Definition user_message (query : pystr) : Content :=
  mkContent (Some (lit "user")) (Some [mkPart (Some query)]).

Definition call_agent_async (query : pystr) (runner : Runner) (user_id session_id : pystr)
  : Turn :=
  let (final_response_text, n) :=
    drain (runner user_id session_id (user_message query)) (Some no_final_response) in
  mkTurn [start_line query; response_line final_response_text] n.

End Driver.

(* ------------------------------------------------------------------ *)
(** ** A concrete world for evaluating [get_weather]

    A server that answers one URL with a JSON document, and the library
    functions restricted to what that server sends: ASCII-only UTF-8
    decoding, [json.loads] on the documents produced by [dumps], and
    [str()] on scalars. *)

Module Sample.
Import Py Weather.

Definition join (sep : pystr) (xs : list pystr) : pystr :=
  match xs with
  | [] => []
  | x :: t => x ++ flat_map (fun y => sep ++ y) t
  end.

Definition dumps_str (s : pystr) : pystr :=
  [34] ++ flat_map (fun c => if (c =? 34) || (c =? 92) then [92; c] else [c]) s ++ [34].

(** [json.dumps] for the documents used below. *)
Fixpoint dumps (j : json) : pystr :=
  match j with
  | JNull => lit "null"
  | JBool true => lit "true"
  | JBool false => lit "false"
  | JInt z => str_int z
  | JFloat r => r
  | JStr s => dumps_str s
  | JArr l => lit "[" ++ join (lit ", ") (map dumps l) ++ lit "]"
  | JObj kvs =>
      lit "{" ++
      join (lit ", ") (map (fun kv => dumps_str (fst kv) ++ lit ": " ++ dumps (snd kv)) kvs)
      ++ lit "}"
  end.

Definition decode_ascii (bs : list Z) : exc + pystr :=
  if forallb (fun b => b <? 128) bs then inr bs
  else inl (mk_builtin_exc "UnicodeDecodeError" ["UnicodeError"; "ValueError"]%string
              (lit "'utf-8' codec can't decode bytes"))%string.

(** [json.loads] on the documents of [docs]. *)
Definition loads_of (docs : list json) (body : pystr) : exc + json :=
  match find (fun d => pystr_eqb (dumps d) body) docs with
  | Some d => inr d
  | None => inl (mk_builtin_exc "JSONDecodeError" ["ValueError"]%string
                   (lit "Expecting value: line 1 column 1 (char 0)"))%string
  end.

(** [str()] of a scalar. *)
Definition str_scalar (j : json) : pystr :=
  match j with
  | JNull => lit "None"
  | JBool true => lit "True"
  | JBool false => lit "False"
  | JInt z => str_int z
  | JFloat r => r
  | JStr s => s
  | _ => dumps j
  end.

(** A server answering [url] with status [st] and the ASCII text of [doc];
    any other URL fails at the transport level. *)
Definition serve (url : pystr) (st : option Z) (doc : json) : Net :=
  fun u t =>
    if pystr_eqb u url then inr (mkResponse st (inr (dumps doc)))
    else inl (mk_builtin_exc "URLError" ["OSError"]%string
                (lit "<urlopen error [Errno -2] Name or service not known>")).

Definition nairobi : pystr := lit "Nairobi".
Definition nairobi_url : pystr := weather_url nairobi.

Definition sunny_desc : list (pystr * json) := [(lit "value", JStr (lit "Sunny"))].

(** A current condition with a description but no [temp_C],
    [feelslike_C] or [humidity], and the body carrying it. *)
Definition partial_cur : list (pystr * json) :=
  [(lit "weatherDesc", JArr [JObj sunny_desc])].

Definition partial_doc : json :=
  JObj [(lit "current_condition", JArr [JObj partial_cur])].

(** A complete current condition and its body. *)
Definition full_cur : list (pystr * json) :=
  [(lit "temp_C", JStr (lit "25")); (lit "feelslike_C", JStr (lit "26"));
   (lit "humidity", JStr (lit "40")); (lit "weatherDesc", JArr [JObj sunny_desc])].

Definition full_kvs : list (pystr * json) :=
  [(lit "current_condition", JArr [JObj full_cur])].

Definition full_doc : json := JObj full_kvs.

(** A second network that answers [nairobi_url] like [serve] but fails
    differently everywhere else. *)
Definition serve_only (url : pystr) (st : option Z) (doc : json) : Net :=
  fun u t =>
    if pystr_eqb u url then serve url st doc u t
    else inr (mkResponse (Some 500) (inr [])).

End Sample.

(** Event streams for evaluating [call_agent_async]. *)
Module DriverSample.
Import Py Driver.

(** A non-final event (e.g. a tool call). *)
Definition tool_call_event : Event := mkEvent false None None None.

Definition sunny : pystr := lit "Sunny, 25" ++ [176] ++ lit "C".

Definition sunny_final : Event :=
  mkEvent true (Some (mkContent (Some (lit "model")) (Some [mkPart (Some sunny)])))
    None None.

(** A final event with neither content nor escalation. *)
Definition silent_final : Event := mkEvent true None (Some (mkActions None)) None.

Definition stream (events : list Event) : Runner := fun _ _ _ => events.

Definition uid : pystr := lit "user_001".
Definition sid : pystr := lit "session_001".
Definition query : pystr := lit "What is the weather in Nairobi?".

End DriverSample.

(* ------------------------------------------------------------------ *)
(** ** Decoding a quoted city

    The inverse direction of [quote], used to state what [quote] keeps:
    percent-decoding ([%XX] with upper-case hex digits, as [quote] writes
    them) and UTF-8 decoding. *)

Module Unquote.
Import Py.

Definition from_hex (c : Z) : option Z :=
  if (48 <=? c) && (c <=? 57) then Some (c - 48)
  else if (65 <=? c) && (c <=? 70) then Some (c - 55)
  else None.

Fixpoint percent_decode (s : pystr) : option (list Z) :=
  match s with
  | [] => Some []
  | c :: rest =>
      if c =? 37 then
        match rest with
        | h1 :: h2 :: t =>
            match from_hex h1, from_hex h2, percent_decode t with
            | Some d1, Some d2, Some bs => Some ((d1 * 16 + d2) :: bs)
            | _, _, _ => None
            end
        | _ => None
        end
      else option_map (cons c) (percent_decode rest)
  end.

Fixpoint utf8_decode (bs : list Z) : option pystr :=
  match bs with
  | [] => Some []
  | b0 :: r =>
      if b0 <? 128 then option_map (cons b0) (utf8_decode r)
      else if b0 <? 224 then
        match r with
        | b1 :: r' => option_map (cons ((b0 - 192) * 64 + (b1 - 128))) (utf8_decode r')
        | _ => None
        end
      else if b0 <? 240 then
        match r with
        | b1 :: b2 :: r' =>
            option_map (cons ((b0 - 224) * 4096 + (b1 - 128) * 64 + (b2 - 128)))
              (utf8_decode r')
        | _ => None
        end
      else
        match r with
        | b1 :: b2 :: b3 :: r' =>
            option_map
              (cons ((b0 - 240) * 262144 + (b1 - 128) * 4096 + (b2 - 128) * 64 + (b3 - 128)))
              (utf8_decode r')
        | _ => None
        end
  end.

(** Percent-decoding, then UTF-8 decoding. *)
Definition unquote (s : pystr) : option pystr :=
  match percent_decode s with
  | Some bs => utf8_decode bs
  | None => None
  end.

End Unquote.

(* ------------------------------------------------------------------ *)
(** ** Session/runner set-up and the conversation (agent.py, lines 95-290)

    The module globals [session_service], [session] and [runner], the
    objects the ADK hands back (identified by numbers), the log of calls
    made into the ADK, and standard output are threaded explicitly.  What
    the ADK does is a parameter: whether [create_session] raises or which
    session it returns, and what [runner.run_async] yields;
    [InMemorySessionService()] and [Runner(...)] are taken not to raise. *)

Module Orchestration.
Import Py Driver.

Definition APP_NAME : pystr := lit "weather_agent_app".
Definition USER_ID : pystr := lit "user_001".
Definition SESSION_ID : pystr := lit "session_001".
Definition root_agent_name : pystr := lit "weather_agent_v1".

(** [Runner(agent=..., app_name=..., session_service=...)] *)
Record RunnerObj := mkRunner {
  runner_agent : pystr;
  runner_app : pystr;
  runner_service : nat
}.

Record Globals := mkGlobals {
  session_service : option nat;
  session : option nat;
  runner : option RunnerObj
}.

Definition unset : Globals := mkGlobals None None None.

(** Calls into the ADK. *)
Inductive Call :=
| NewSessionService (id : nat)                          (* InMemorySessionService() *)
| CreateSession (svc : nat) (app user sid : pystr)       (* create_session(...) *)
| NewRunner (r : RunnerObj)                              (* Runner(...) *)
| RunAsync (r : RunnerObj) (user sid : pystr) (msg : Content).  (* run_async(...) *)

Record St := mkSt {
  globals : Globals;
  next_id : nat;           (* identity of the next object allocated *)
  calls : list Call;       (* calls into the ADK, oldest first *)
  out : list pystr         (* lines printed *)
}.

Definition start_state : St := mkSt unset 0 [] [].

Definition SM (A : Type) := St -> ((exc + A) * St)%type.

Definition sret {A} (a : A) : SM A := fun st => (inr a, st).
Definition sraise {A} (e : exc) : SM A := fun st => (inl e, st).
Definition sbind {A B} (m : SM A) (f : A -> SM B) : SM B :=
  fun st => match m st with
            | (inl e, st') => (inl e, st')
            | (inr a, st') => f a st'
            end.
(** [try: m  except Exception as e: h(e)] *)
Definition stry {A} (m : SM A) (h : exc -> SM A) : SM A :=
  fun st => match m st with
            | (inl e, st') => h e st'
            | ok => ok
            end.

Notation "x <-- m ;; k" := (sbind m (fun x => k))
  (at level 61, m at next level, right associativity).
Notation "m ;;; k" := (sbind m (fun _ => k)) (at level 61, right associativity).

Definition get_globals : SM Globals := fun st => (inr (globals st), st).
Definition set_globals (g : Globals) : SM unit :=
  fun st => (inr tt, mkSt g (next_id st) (calls st) (out st)).
Definition print (line : pystr) : SM unit :=
  fun st => (inr tt, mkSt (globals st) (next_id st) (calls st) (out st ++ [line])).
Definition record (c : Call) : SM unit :=
  fun st => (inr tt, mkSt (globals st) (next_id st) (calls st ++ [c]) (out st)).
Definition alloc : SM nat :=
  fun st => (inr (next_id st), mkSt (globals st) (S (next_id st)) (calls st) (out st)).

Section Program.

(** [session_service.create_session(...)]: raises, or returns a session,
    given the calls made so far. *)
Variable create_session : list Call -> nat -> pystr -> pystr -> pystr -> exc + nat.
(** [runner.run_async(...)]: the events yielded, then either the end of the
    stream or the exception it raises, given the calls made so far. *)
Variable run_async : list Call -> RunnerObj -> pystr -> pystr -> Content ->
                     (list Event * option exc)%type.

(** [create_session_for] (lines 95-100). *)
Definition create_session_for (svc : nat) (app user sid : pystr) : SM nat :=
  fun st =>
    let r := create_session (calls st) svc app user sid in
    (r, mkSt (globals st) (next_id st) (calls st ++ [CreateSession svc app user sid]) (out st)).

(** [init_default_runner] (lines 154-170). *)
Definition init_default_runner : SM unit :=
  g <-- get_globals ;;
  svc <-- match session_service g with
          | None =>
              id <-- alloc ;;
              record (NewSessionService id) ;;;
              set_globals (mkGlobals (Some id) (session g) (runner g)) ;;;
              sret id
          | Some svc => sret svc
          end ;;
  sess <-- create_session_for svc APP_NAME USER_ID SESSION_ID ;;
  g1 <-- get_globals ;;
  set_globals (mkGlobals (session_service g1) (Some sess) (runner g1)) ;;;
  print (lit "Session created: App='" ++ APP_NAME ++ lit "', User='" ++ USER_ID ++
         lit "', Session='" ++ SESSION_ID ++ lit "'") ;;;
  let r := mkRunner root_agent_name APP_NAME svc in
  record (NewRunner r) ;;;
  g2 <-- get_globals ;;
  set_globals (mkGlobals (session_service g2) (session g2) (Some r)) ;;;
  print (lit "Runner initialized for agent '" ++ runner_agent r ++ lit "'.").

(** [call_agent_async] with the runner's stream effects: the start line is
    printed, the generator is drained as in [Driver.drain]; if it raises
    before any final event the exception propagates. *)
Definition call_agent_async_io (query : pystr) (r : RunnerObj) (user_id session_id : pystr)
  : SM unit :=
  fun st =>
    let msg := user_message query in
    let (events, stop) := run_async (calls st) r user_id session_id msg in
    let st1 := mkSt (globals st) (next_id st)
                 (calls st ++ [RunAsync r user_id session_id msg]) (out st) in
    let turn := call_agent_async query (fun _ _ _ => events) user_id session_id in
    match existsb is_final_response events, stop with
    | false, Some e =>
        (inl e, mkSt (globals st1) (next_id st1) (calls st1) (out st1 ++ [start_line query]))
    | _, _ =>
        (inr tt, mkSt (globals st1) (next_id st1) (calls st1) (out st1 ++ stdout turn))
    end.

Definition runtime_error : exc :=
  mk_builtin_exc "RuntimeError" []
    (lit "Failed to initialize default runner; cannot run conversation.").

(** [call_agent_async(q, runner=runner, ...)] reading the global [runner];
    [None.run_async] would raise [AttributeError]. *)
Definition ask (query : pystr) : SM unit :=
  g <-- get_globals ;;
  match runner g with
  | Some r => call_agent_async_io query r USER_ID SESSION_ID
  | None => sraise (mk_builtin_exc "AttributeError" []
                      (lit "'NoneType' object has no attribute 'run_async'"))
  end.

Definition q_nairobi : pystr := lit "What is the weather in Nairobi?".
Definition q_new_york : pystr := lit "What is the weather in New York?".
Definition q_london : pystr := lit "What is the weather in London?".

(** [run_conversation] (lines 258-268). *)
Definition run_conversation : SM unit :=
  g <-- get_globals ;;
  match runner g with None => init_default_runner | Some _ => sret tt end ;;;
  g' <-- get_globals ;;
  match runner g' with
  | None => sraise runtime_error
  | Some _ => ask q_nairobi ;;; ask q_new_york ;;; ask q_london
  end.

(** [main] (lines 272-290). *)
Definition main : SM unit :=
  stry (init_default_runner ;;; run_conversation)
    (fun e => print (lit "Error occurred in main(): " ++ exc_str e) ;;; sraise e).

End Program.

(** Module-level scheduling (lines 240-253): with a running, open loop,
    [create_task] is called for [init_default_runner()] and, when
    [MODEL_GPT] is set, for [init_gpt_runner()], a name the module does not
    define (its definition is commented out); any exception is swallowed. *)
Definition module_functions : list pystr :=
  map lit ["_is_rate_limit_error"; "get_weather"; "create_session_for";
           "call_agent_async"; "init_default_runner"]%string.

(** [_loop.create_task(name())]: [NameError] for an undefined name. *)
Definition create_task (name : pystr) (tasks : list pystr) : option exc * list pystr :=
  if existsb (pystr_eqb name) module_functions then (None, tasks ++ [name])
  else (Some (mk_builtin_exc "NameError" []
                (lit "name '" ++ name ++ lit "' is not defined")), tasks).

(** [running_loop]: [None] when [get_running_loop()] raises, otherwise
    [Some closed]; [model_gpt] is [os.environ.get("MODEL_GPT")]. *)
Definition scheduled_tasks (running_loop : option bool) (model_gpt : option pystr)
  : list pystr :=
  match running_loop with
  | Some false =>
      let (e1, t1) := create_task (lit "init_default_runner") [] in
      match e1 with
      | Some _ => t1
      | None =>
          match model_gpt with
          | Some m => if truthy m then snd (create_task (lit "init_gpt_runner") t1) else t1
          | None => t1
          end
      end
  | _ => []
  end.

End Orchestration.

(* ================================================================== *)
(** * Properties of [get_weather] *)

Module WeatherFacts.
Import Py Weather.

(** ** Python-level helpers *)

Lemma lstrip_blank (s : pystr) :
  Forall (fun c => is_space c = true) s -> lstrip s = [].
Proof.
  induction 1 as [|c t Hc _ IH]; simpl; [reflexivity|].
  now rewrite Hc.
Qed.

Lemma strip_blank (s : pystr) :
  Forall (fun c => is_space c = true) s -> strip s = [].
Proof. intros H. unfold strip. now rewrite (lstrip_blank s H). Qed.

Lemma lstrip_exists (s : pystr) :
  Exists (fun c => is_space c = false) s -> Exists (fun c => is_space c = false) (lstrip s).
Proof.
  induction 1 as [c t Hc | c t Ht IH]; cbn [lstrip].
  - rewrite Hc. now apply Exists_cons_hd.
  - destruct (is_space c) eqn:E; [exact IH | now apply Exists_cons_tl].
Qed.

Lemma exists_truthy (P : Z -> Prop) (s : pystr) : Exists P s -> truthy s = true.
Proof. now destruct 1. Qed.

(** A city with a non-whitespace character passes the guard of line 55. *)
Lemma nonblank_guard (city : pystr) :
  Exists (fun c => is_space c = false) city ->
  negb (truthy city) || negb (truthy (strip city)) = false.
Proof.
  intros H. rewrite (exists_truthy _ _ H). unfold strip.
  rewrite (exists_truthy _ _ (Exists_rev (lstrip_exists _
             (Exists_rev (lstrip_exists _ H))))).
  reflexivity.
Qed.

Lemma encode_utf8_ok (pos : Z) (s : pystr) :
  Forall (fun c => Quote.is_surrogate c = false) s ->
  exists bs, Quote.encode_utf8 pos s = inr bs.
Proof.
  intros H; revert pos. induction H as [|c t Hc _ IH]; intros pos; simpl.
  - now exists [].
  - rewrite Hc. destruct (IH (pos + 1)) as [bs ->]. eauto.
Qed.

Lemma quote_ok (s : pystr) :
  Forall (fun c => Quote.is_surrogate c = false) s ->
  exists enc, Quote.quote s = inr enc.
Proof.
  intros H. unfold Quote.quote. destruct s as [|c t]; [eauto|].
  destruct (encode_utf8_ok 0 (c :: t) H) as [bs ->]. eauto.
Qed.

(** ** The monad *)

Lemma bind_inr {A B} (a : A) (l : list request) (f : A -> M B) :
  bind (inr a, l) f = (fst (f a), l ++ snd (f a)).
Proof. simpl. now destruct (f a). Qed.

Lemma bind_fst_inr {A B} (m : M A) (a : A) (f : A -> M B) :
  fst m = inr a -> bind m f = (fst (f a), snd m ++ snd (f a)).
Proof. destruct m as [r l]; simpl; intros ->. simpl. now destruct (f a). Qed.

Lemma bind_inl {A B} (e : exc) (l : list request) (f : A -> M B) :
  bind (inl e, l) f = (inl e, l).
Proof. reflexivity. Qed.

(** A [try] whose handler only builds a value never lets anything out. *)
Lemma try_except_ret_total {A} (m : M A) (h : exc -> A) :
  exists a, fst (try_except m (fun e => ret (h e))) = inr a.
Proof. destruct m as [[e|a] l]; simpl; eauto. Qed.

Lemma try_except_ret_log {A} (m : M A) (h : exc -> A) :
  snd (try_except m (fun e => ret (h e))) = snd m.
Proof. destruct m as [[e|a] l]; simpl; [apply app_nil_r|reflexivity]. Qed.

Section Lib.
Variable decode_utf8 : list Z -> exc + pystr.
Variable json_loads : pystr -> exc + json.
Variable str_json : json -> pystr.

Let fetch := fetch decode_utf8 json_loads.
Let parse := parse str_json.
Let get_weather := get_weather decode_utf8 json_loads str_json.

Lemma fetch_total (net : Net) (url : pystr) :
  exists r, fst (fetch net url) = inr r.
Proof. apply try_except_ret_total. Qed.

Lemma parse_total (city : pystr) (data : json) :
  exists d, fst (parse city data) = inr d.
Proof. apply try_except_ret_total. Qed.

(** Once [quote] has succeeded nothing escapes [get_weather]. *)
Lemma get_weather_total_after_quote (net : Net) (city enc : pystr) :
  Quote.quote city = inr enc ->
  exists d, fst (get_weather net city) = inr d.
Proof.
  intros Hq. unfold get_weather, Weather.get_weather.
  destruct (negb (truthy city) || negb (truthy (strip city))); [eexists; reflexivity|].
  unfold lift at 1. rewrite Hq, bind_inr. simpl fst.
  destruct (fetch_total net (weather_url enc)) as [r Hr].
  fold fetch. destruct (fetch net (weather_url enc)) as [res l] eqn:Hf.
  simpl in Hr. subst res. rewrite bind_inr. simpl.
  destruct r as [d|data]; [eexists; reflexivity|].
  apply parse_total.
Qed.

(** Every Python [str] without a lone surrogate: [get_weather] returns. *)
Lemma get_weather_total (net : Net) (city : pystr) :
  Forall (fun c => Quote.is_surrogate c = false) city ->
  exists d, fst (get_weather net city) = inr d.
Proof.
  intros H. destruct (quote_ok city H) as [enc Hq].
  eapply get_weather_total_after_quote; eauto.
Qed.

(** ** The fetch block (lines 62-70) *)

Definition status_ok (st : option Z) : Prop := st = None \/ st = Some 200.

Lemma fetch_body (net : Net) (url : pystr) resp raw body data :
  net url 10 = inr resp -> status_ok (status resp) ->
  read resp = inr raw -> decode_utf8 raw = inr body -> json_loads body = inr data ->
  fetch net url = (inr (inr data), [(url, 10)]).
Proof.
  intros Hn Hs Hr Hd Hl. unfold fetch, Weather.fetch, urlopen.
  rewrite Hn. unfold read_body. destruct Hs as [Hs | Hs]; cbn; rewrite Hs;
    cbn; rewrite Hr; cbn; rewrite Hd; cbn; rewrite Hl; reflexivity.
Qed.

Lemma fetch_bad_status (net : Net) (url : pystr) resp st :
  net url 10 = inr resp -> status resp = Some st -> st <> 200 ->
  fetch net url = (inr (inl (error_dict (fetch_error_msg (str_int st)))), [(url, 10)]).
Proof.
  intros Hn Hs Hne. unfold fetch, Weather.fetch, urlopen.
  rewrite Hn. cbn. rewrite Hs. apply Z.eqb_neq in Hne. now rewrite Hne.
Qed.

Lemma fetch_transport_error (net : Net) (url : pystr) e :
  net url 10 = inl e ->
  fetch net url = (inr (inl (error_dict (fetch_error_msg (exc_str e)))), [(url, 10)]).
Proof. intros Hn. unfold fetch, Weather.fetch, urlopen. now rewrite Hn. Qed.

(** Reading, decoding or parsing the body raises [e]. *)
Definition body_fails (resp : Response) (e : exc) : Prop :=
  read resp = inl e \/
  (exists raw, read resp = inr raw /\ decode_utf8 raw = inl e) \/
  (exists raw body, read resp = inr raw /\ decode_utf8 raw = inr body /\
                    json_loads body = inl e).

Lemma fetch_body_error (net : Net) (url : pystr) resp e :
  net url 10 = inr resp -> status_ok (status resp) -> body_fails resp e ->
  fetch net url = (inr (inl (error_dict (fetch_error_msg (exc_str e)))), [(url, 10)]).
Proof.
  intros Hn Hs Hb. unfold fetch, Weather.fetch, urlopen. rewrite Hn.
  unfold read_body.
  destruct Hb as [Hr | [[raw [Hr Hd]] | [raw [body [Hr [Hd Hl]]]]]];
  destruct Hs as [Hs | Hs]; cbn; rewrite Hs; cbn; rewrite Hr; cbn;
    try rewrite Hd; cbn; try rewrite Hl; reflexivity.
Qed.

(** Every outcome of the fetch block. *)
Lemma fetch_cases (net : Net) (url : pystr) :
  snd (fetch net url) = [(url, 10)] /\
  ((exists m, fst (fetch net url) = inr (inl (error_dict m))) \/
   (exists resp raw body data,
      net url 10 = inr resp /\ status_ok (status resp) /\ read resp = inr raw /\
      decode_utf8 raw = inr body /\ json_loads body = inr data /\
      fst (fetch net url) = inr (inr data))).
Proof.
  destruct (net url 10) as [e|resp] eqn:Hn.
  { rewrite (fetch_transport_error _ _ _ Hn). split; [reflexivity|]. left; eexists; reflexivity. }
  assert (Hbody : status_ok (status resp) ->
    snd (fetch net url) = [(url, 10)] /\
    ((exists m, fst (fetch net url) = inr (inl (error_dict m))) \/
     (exists resp raw body data,
        net url 10 = inr resp /\ status_ok (status resp) /\ read resp = inr raw /\
        decode_utf8 raw = inr body /\ json_loads body = inr data /\
        fst (fetch net url) = inr (inr data)))).
  { intros Hs.
    destruct (read resp) as [e|raw] eqn:Hr.
    { rewrite (fetch_body_error _ _ resp e Hn Hs (or_introl Hr)). split; [reflexivity|left; eexists; reflexivity]. }
    destruct (decode_utf8 raw) as [e|body] eqn:Hd.
    { rewrite (fetch_body_error _ _ resp e Hn Hs (or_intror (or_introl (ex_intro _ raw (conj Hr Hd))))).
      split; [reflexivity|left; eexists; reflexivity]. }
    destruct (json_loads body) as [e|data] eqn:Hl.
    { rewrite (fetch_body_error _ _ resp e Hn Hs
                 (or_intror (or_intror (ex_intro _ raw (ex_intro _ body (conj Hr (conj Hd Hl))))))).
      split; [reflexivity|left; eexists; reflexivity]. }
    rewrite (fetch_body _ _ resp raw body data Hn Hs Hr Hd Hl).
    split; [reflexivity|]. right. exists resp, raw, body, data. auto 7. }
  rewrite Hn in Hbody.
  destruct (status resp) as [st|] eqn:Hst.
  - destruct (Z.eq_dec st 200) as [->|Hne].
    + apply Hbody. now right.
    + rewrite (fetch_bad_status _ _ resp st Hn Hst Hne). split; [reflexivity|left; eexists; reflexivity].
  - apply Hbody. now left.
Qed.

(** ** The whole function, once the guard of line 55 is passed *)

Lemma get_weather_unfold (net : Net) (city : pystr) :
  Exists (fun c => is_space c = false) city ->
  get_weather net city =
  match Quote.quote city with
  | inl e => (inl e, [])
  | inr enc =>
      bind (fetch net (weather_url enc))
        (fun r => match r with inl d => ret d | inr data => parse city data end)
  end.
Proof.
  intros H. unfold get_weather, Weather.get_weather. rewrite (nonblank_guard _ H).
  destruct (Quote.quote city) as [e|enc]; [reflexivity|].
  unfold lift. rewrite bind_inr. simpl app. now destruct (bind _ _).
Qed.

(** ** The parse block (lines 73-86) *)

Lemma parse_extract (city : pystr) kvs cur wd rest1 rest2 :
  get_or kvs (lit "current_condition") (JArr []) = JArr (JObj cur :: rest1) ->
  get_or cur (lit "weatherDesc") (JArr [JObj []]) = JArr (JObj wd :: rest2) ->
  parse city (JObj kvs) =
  (inr (success_dict
          (weather_report str_json city (get_or wd (lit "value") JNull)
             (get_or cur (lit "temp_C") JNull) (get_or cur (lit "feelslike_C") JNull)
             (get_or cur (lit "humidity") JNull))
          (JObj kvs)), []).
Proof.
  intros H1 H2. unfold parse, Weather.parse. cbn -[get_or lit].
  rewrite H1. cbn -[get_or lit]. rewrite H2. reflexivity.
Qed.

Lemma parse_cases (city : pystr) (data : json) :
  extractable data \/
  exists e, parse city data = (inr (error_dict (parse_error_msg (exc_str e))), []).
Proof.
  destruct data as [| | | | |l|kvs]; try (right; eexists; reflexivity).
  destruct (get_or kvs (lit "current_condition") (JArr [])) as [| | | |s|l|kvs'] eqn:E1;
    try (right; eexists; unfold parse, Weather.parse; cbn -[get_or lit];
         rewrite E1; reflexivity).
  - destruct s; right; eexists; unfold parse, Weather.parse; cbn -[get_or lit];
      rewrite E1; reflexivity.
  - destruct l as [|x rest1];
      [right; eexists; unfold parse, Weather.parse; cbn -[get_or lit]; rewrite E1; reflexivity|].
    destruct x as [| | | | | |cur];
      try (right; eexists; unfold parse, Weather.parse; cbn -[get_or lit];
           rewrite E1; reflexivity).
    destruct (get_or cur (lit "weatherDesc") (JArr [JObj []])) as [| | | |s|l|kvs''] eqn:E2;
      try (right; eexists; unfold parse, Weather.parse; cbn -[get_or lit];
           rewrite E1; cbn -[get_or lit]; rewrite E2; reflexivity).
    + destruct s; right; eexists; unfold parse, Weather.parse; cbn -[get_or lit];
        rewrite E1; cbn -[get_or lit]; rewrite E2; reflexivity.
    + destruct l as [|y rest2];
        [right; eexists; unfold parse, Weather.parse; cbn -[get_or lit];
         rewrite E1; cbn -[get_or lit]; rewrite E2; reflexivity|].
      destruct y as [| | | | | |wd];
        try (right; eexists; unfold parse, Weather.parse; cbn -[get_or lit];
             rewrite E1; cbn -[get_or lit]; rewrite E2; reflexivity).
      left. exists kvs, cur, wd, rest1, rest2. auto.
Qed.

End Lib.

(** The Python string ["\ud800"] (one lone surrogate). *)
Definition lone_surrogate : pystr := [55296].

(** ** C1 (code_bug): [get_weather] does raise past its boundary.
    For the non-blank [str] ["\ud800"], [urllib.parse.quote] (line 59,
    before the [try] of line 62) raises [UnicodeEncodeError], which
    propagates out of [get_weather]; no dictionary is returned. *)
Theorem get_weather_surrogate_raises
  (decode_utf8 : list Z -> exc + pystr) (json_loads : pystr -> exc + json)
  (str_json : json -> pystr) (net : Net) :
  get_weather decode_utf8 json_loads str_json net lone_surrogate =
  (inl (Quote.unicode_encode_error 55296 0 1), []).
Proof. reflexivity. Qed.

(** ** C2: a city that is empty or made only of whitespace is rejected
    with ["City must be non-empty string."] and no HTTP request is made
    (the request log is empty), whatever the network does. *)
Theorem get_weather_blank_city
  (decode_utf8 : list Z -> exc + pystr) (json_loads : pystr -> exc + json)
  (str_json : json -> pystr) (net : Net) (city : pystr)
  (Hblank : Forall (fun c => is_space c = true) city) :
  get_weather decode_utf8 json_loads str_json net city =
  (inr (error_dict blank_city_msg), []).
Proof.
  unfold get_weather. rewrite (strip_blank city Hblank).
  now rewrite orb_true_r.
Qed.

Section Claims.
Variable decode_utf8 : list Z -> exc + pystr.
Variable json_loads : pystr -> exc + json.
Variable str_json : json -> pystr.

Let get_weather := get_weather decode_utf8 json_loads str_json.

(** The HTTP part of [get_weather] for a non-blank city that [quote]
    accepts: exactly one request, [GET weather_url enc] with timeout 10;
    a present status other than 200 is reported; transport and body
    failures are reported with [str(e)]. *)
Lemma get_weather_http (net : Net) (city enc : pystr) :
  Exists (fun c => is_space c = false) city ->
  Quote.quote city = inr enc ->
  snd (get_weather net city) = [(weather_url enc, 10)] /\
  (forall resp st, net (weather_url enc) 10 = inr resp -> status resp = Some st -> st <> 200 ->
     fst (get_weather net city) = inr (error_dict (fetch_error_msg (str_int st)))) /\
  (forall e, net (weather_url enc) 10 = inl e ->
     fst (get_weather net city) = inr (error_dict (fetch_error_msg (exc_str e)))) /\
  (forall resp e, net (weather_url enc) 10 = inr resp -> status_ok (status resp) ->
     body_fails decode_utf8 json_loads resp e ->
     fst (get_weather net city) = inr (error_dict (fetch_error_msg (exc_str e)))).
Proof.
  intros Hc Hq. unfold get_weather. rewrite (get_weather_unfold _ _ _ _ _ Hc), Hq.
  split; [|split; [|split]].
  - destruct (fetch_cases decode_utf8 json_loads net (weather_url enc)) as [Hl [[m Hm]|Hd]].
    + rewrite (bind_fst_inr _ _ _ Hm), Hl. reflexivity.
    + destruct Hd as (resp & raw & body & data & _ & _ & _ & _ & _ & Hd).
      rewrite (bind_fst_inr _ _ _ Hd), Hl. simpl.
      destruct (parse_cases str_json city data) as [(kvs & cur & wd & r1 & r2 & -> & E1 & E2)|[e He]].
      * now rewrite (parse_extract str_json city kvs cur wd r1 r2 E1 E2).
      * now rewrite He.
  - intros resp st Hn Hs Hne.
    now rewrite (fetch_bad_status decode_utf8 json_loads net _ resp st Hn Hs Hne).
  - intros e Hn. now rewrite (fetch_transport_error decode_utf8 json_loads net _ e Hn).
  - intros resp e Hn Hs Hb.
    now rewrite (fetch_body_error decode_utf8 json_loads net _ resp e Hn Hs Hb).
Qed.

(** ** C3 (corrected): after a successful fetch and decode, the error
    ["Error parsing weather data: <e>."] is returned exactly when the body
    is not [extractable] (not an object, no first [current_condition]
    element that is an object, or a present [weatherDesc] with no first
    element that is an object).  Missing [temp_C], [feelslike_C],
    [humidity], [weatherDesc] or [value] are not errors: [None] is
    interpolated into a complete success report. *)
Theorem get_weather_parse_outcome (net : Net) (city enc : pystr) resp raw body data
  (Hcity : Exists (fun c => is_space c = false) city)
  (Hq : Quote.quote city = inr enc)
  (Hn : net (weather_url enc) 10 = inr resp)
  (Hs : status_ok (status resp))
  (Hr : read resp = inr raw)
  (Hd : decode_utf8 raw = inr body)
  (Hl : json_loads body = inr data) :
  (forall kvs cur wd rest1 rest2,
     data = JObj kvs ->
     get_or kvs (lit "current_condition") (JArr []) = JArr (JObj cur :: rest1) ->
     get_or cur (lit "weatherDesc") (JArr [JObj []]) = JArr (JObj wd :: rest2) ->
     get_weather net city =
     (inr (success_dict
             (weather_report str_json city (get_or wd (lit "value") JNull)
                (get_or cur (lit "temp_C") JNull) (get_or cur (lit "feelslike_C") JNull)
                (get_or cur (lit "humidity") JNull))
             data), [(weather_url enc, 10)])) /\
  (~ extractable data ->
   exists e, get_weather net city =
             (inr (error_dict (parse_error_msg (exc_str e))), [(weather_url enc, 10)])).
Proof.
  unfold get_weather. rewrite (get_weather_unfold _ _ _ _ _ Hcity), Hq.
  rewrite (fetch_body _ _ _ _ resp raw body data Hn Hs Hr Hd Hl), bind_inr.
  split.
  - intros kvs cur wd r1 r2 -> E1 E2.
    now rewrite (parse_extract str_json city kvs cur wd r1 r2 E1 E2).
  - intros Hne. destruct (parse_cases str_json city data) as [Hx|[e He]]; [contradiction|].
    exists e. now rewrite He.
Qed.

(** ** C6 (code_bug): for the non-blank city ["\ud800"] no GET is
    issued at all: [quote] raises first (same defect as C1). *)
Theorem get_weather_surrogate_no_request (net : Net) :
  Exists (fun c => is_space c = false) lone_surrogate /\
  snd (get_weather net lone_surrogate) = [] /\
  exists e, fst (get_weather net lone_surrogate) = inl e.
Proof.
  split; [now apply Exists_cons_hd|].
  split; [reflexivity|]. eexists; reflexivity.
Qed.

(** ** C7: for a body from which extraction succeeds (a non-blank city
    that [quote] accepts, a response with an acceptable status whose body
    reads, decodes and parses to an object with a first
    [current_condition] object and a first [weatherDesc] object),
    [get_weather] returns [{"status": "success", "report": r, "data": data}]
    where [r] interpolates the city, the [value] of the first [weatherDesc]
    element of the first [current_condition] element, [temp_C],
    [feelslike_C] and [humidity] ([None] where absent) and [data] is the
    decoded body.  And every dictionary [get_weather] returns is either
    [{"status": "error", "error_message": m}] or such a success. *)
Theorem get_weather_result_shape (net : Net) (city : pystr) :
  (forall enc resp raw body kvs cur wd rest1 rest2,
     Exists (fun c => is_space c = false) city ->
     Quote.quote city = inr enc ->
     net (weather_url enc) 10 = inr resp -> status_ok (status resp) ->
     read resp = inr raw -> decode_utf8 raw = inr body ->
     json_loads body = inr (JObj kvs) ->
     get_or kvs (lit "current_condition") (JArr []) = JArr (JObj cur :: rest1) ->
     get_or cur (lit "weatherDesc") (JArr [JObj []]) = JArr (JObj wd :: rest2) ->
     get_weather net city =
     (inr (success_dict
             (weather_report str_json city (get_or wd (lit "value") JNull)
                (get_or cur (lit "temp_C") JNull) (get_or cur (lit "feelslike_C") JNull)
                (get_or cur (lit "humidity") JNull))
             (JObj kvs)), [(weather_url enc, 10)])) /\
  (forall d log, get_weather net city = (inr d, log) ->
   (exists m, d = error_dict m) \/
   (exists enc resp raw body kvs cur wd rest1 rest2,
      Quote.quote city = inr enc /\
      net (weather_url enc) 10 = inr resp /\ status_ok (status resp) /\
      read resp = inr raw /\ decode_utf8 raw = inr body /\
      json_loads body = inr (JObj kvs) /\
      get_or kvs (lit "current_condition") (JArr []) = JArr (JObj cur :: rest1) /\
      get_or cur (lit "weatherDesc") (JArr [JObj []]) = JArr (JObj wd :: rest2) /\
      d = success_dict
            (weather_report str_json city (get_or wd (lit "value") JNull)
               (get_or cur (lit "temp_C") JNull) (get_or cur (lit "feelslike_C") JNull)
               (get_or cur (lit "humidity") JNull))
            (JObj kvs))).
Proof.
  split.
  { intros enc resp raw body kvs cur wd r1 r2 Hc Hq Hn Hs Hr Hd Hl E1 E2.
    unfold get_weather. rewrite (get_weather_unfold _ _ _ _ _ Hc), Hq.
    rewrite (fetch_body _ _ _ _ resp raw body (JObj kvs) Hn Hs Hr Hd Hl), bind_inr.
    now rewrite (parse_extract str_json city kvs cur wd r1 r2 E1 E2). }
  intros d log H.
  unfold get_weather, Weather.get_weather in H.
  destruct (negb (truthy city) || negb (truthy (strip city))) eqn:Eg.
  { inversion H. left. eexists; reflexivity. }
  destruct (Quote.quote city) as [e|enc] eqn:Hq; [discriminate H|].
  unfold lift in H. rewrite bind_inr in H. simpl in H.
  destruct (fetch_cases decode_utf8 json_loads net (weather_url enc)) as [_ [[m Hm]|Hd]].
  - rewrite (bind_fst_inr _ _ _ Hm) in H. simpl in H. inversion H. left; eauto.
  - destruct Hd as (resp & raw & body & data & Hn & Hs & Hr & Hdc & Hl & Hd).
    rewrite (bind_fst_inr _ _ _ Hd) in H.
    destruct (parse_cases str_json city data) as [(kvs & cur & wd & r1 & r2 & -> & E1 & E2)|[e He]].
    + rewrite (parse_extract str_json city kvs cur wd r1 r2 E1 E2) in H.
      simpl in H. inversion H. right.
      exists enc, resp, raw, body, kvs, cur, wd, r1, r2. auto 10.
    + rewrite He in H. simpl in H. inversion H. left; eauto.
Qed.

(** ** C9: [get_weather] is a function of the city and of the network's
    answer to the one request it makes: two networks that answer that
    request alike give equal results (and equal request logs). *)
Theorem get_weather_deterministic (net1 net2 : Net) (city : pystr)
  (Hsame : forall enc, Quote.quote city = inr enc ->
           net1 (weather_url enc) 10 = net2 (weather_url enc) 10) :
  get_weather net1 city = get_weather net2 city.
Proof.
  unfold get_weather, Weather.get_weather.
  destruct (negb (truthy city) || negb (truthy (strip city))); [reflexivity|].
  destruct (Quote.quote city) as [e|enc] eqn:Hq; [reflexivity|].
  assert (Hf : Weather.fetch decode_utf8 json_loads net1 (weather_url enc) =
               Weather.fetch decode_utf8 json_loads net2 (weather_url enc)).
  { unfold Weather.fetch, urlopen. now rewrite (Hsame enc eq_refl). }
  unfold lift. rewrite !bind_inr. cbv beta. now rewrite Hf.
Qed.

End Claims.

End WeatherFacts.

(* ================================================================== *)
(** * Properties of [_is_rate_limit_error] *)

Module RateLimitFacts.
Import Py RateLimit.

Lemma starts_with_app (p q h : pystr) :
  starts_with (p ++ q) h = true -> starts_with p h = true.
Proof.
  revert h. induction p as [|c p IH]; intros h; [reflexivity|].
  destruct h as [|d h]; simpl; [discriminate|].
  intros H. apply andb_prop in H as [H1 H2]. now rewrite H1, (IH h H2).
Qed.

Lemma contains_app (p q h : pystr) :
  contains (p ++ q) h = true -> contains p h = true.
Proof.
  induction h as [|d h IH]; simpl; intros H.
  - apply orb_prop in H as [H|H]; [|discriminate].
    now rewrite (starts_with_app p q [] H).
  - apply orb_prop in H as [H|H].
    + now rewrite (starts_with_app p q (d :: h) H).
    + rewrite (IH H). apply orb_true_r.
Qed.

(** ** C8: the classifier answers [True] whenever the type name or
    [str(exc)] contains ["RateLimit"] (so whenever the type name contains
    ["RateLimitError"]), whatever [import litellm] does; it answers [False]
    for [ValueError("timeout")] with litellm absent, present without
    [RateLimitError], or present with its own [RateLimitError] class. *)
Theorem is_rate_limit_error_spec :
  (forall env e,
     contains RateLimit (exc_type e) = true \/ contains RateLimit (exc_str e) = true ->
     _is_rate_limit_error env (Some e) = true) /\
  (forall env e,
     contains (lit "RateLimitError") (exc_type e) = true ->
     _is_rate_limit_error env (Some e) = true) /\
  _is_rate_limit_error LitellmMissing (Some value_error_timeout) = false /\
  _is_rate_limit_error (LitellmPresent None) (Some value_error_timeout) = false /\
  _is_rate_limit_error (LitellmPresent (Some litellm_RateLimitError))
    (Some value_error_timeout) = false.
Proof.
  assert (Hname : forall env e,
     contains RateLimit (exc_type e) = true \/ contains RateLimit (exc_str e) = true ->
     _is_rate_limit_error env (Some e) = true).
  { intros env e [H|H]; simpl; rewrite H; [reflexivity|now rewrite orb_true_r]. }
  split; [exact Hname|].
  split; [|vm_compute; auto].
  intros env e H. apply Hname. left.
  change (lit "RateLimitError") with (RateLimit ++ lit "Error") in H.
  exact (contains_app _ _ _ H).
Qed.

End RateLimitFacts.

(* ================================================================== *)
(** * Properties of [call_agent_async] *)

Module DriverFacts.
Import Py Driver.

Definition not_final (ev : Event) : Prop := is_final_response ev = false.

Lemma drain_text (events : list Event) (t : option pystr) :
  fst (drain events t) =
  match find is_final_response events with
  | Some ev => resolve ev t
  | None => t
  end.
Proof.
  induction events as [|ev rest IH]; [reflexivity|]. simpl.
  destruct (is_final_response ev); [reflexivity|].
  destruct (drain rest t) as [t' n]. exact IH.
Qed.

Lemma drain_prefix (pre : list Event) (ev : Event) (post : list Event) (t : option pystr) :
  Forall not_final pre -> is_final_response ev = true ->
  drain (pre ++ ev :: post) t = (resolve ev t, S (List.length pre)).
Proof.
  intros Hpre Hev. induction Hpre as [|e pre He _ IH]; simpl.
  - now rewrite Hev.
  - unfold not_final in He. rewrite He, IH. reflexivity.
Qed.

Lemma find_none_not_final (events : list Event) :
  Forall not_final events -> find is_final_response events = None.
Proof.
  induction 1 as [|e rest He _ IH]; [reflexivity|]. simpl.
  unfold not_final in He. now rewrite He.
Qed.

Lemma call_agent_async_stdout (query : pystr) (runner : Runner) (uid sid : pystr) :
  stdout (call_agent_async query runner uid sid) =
  [start_line query;
   response_line
     (match find is_final_response (runner uid sid (user_message query)) with
      | Some ev => resolve ev (Some no_final_response)
      | None => Some no_final_response
      end)].
Proof.
  unfold call_agent_async. rewrite <- drain_text.
  now destruct (drain _ _).
Qed.

(** ** C4: the turn's reported text is decided by the first final event:
    the text of its first content part when it has a non-empty [parts]
    list; otherwise, when it is escalated, ["Agent escalated: <msg>"] with
    its error message, or ["No specific message."] when the message is
    absent (or empty); and when no event is final, the placeholder
    ["Agent did not produce a final response."]. *)
Theorem call_agent_async_resolution (query : pystr) (runner : Runner) (uid sid : pystr) :
  let events := runner uid sid (user_message query) in
  let out := stdout (call_agent_async query runner uid sid) in
  (forall ev c p ps,
     find is_final_response events = Some ev ->
     content ev = Some c -> parts c = Some (p :: ps) ->
     out = [start_line query; response_line (text p)]) /\
  (forall ev,
     find is_final_response events = Some ev ->
     first_part ev = None -> escalated ev = true ->
     (forall m, error_message ev = Some m -> m <> [] ->
        out = [start_line query; response_line (Some (lit "Agent escalated: " ++ m))]) /\
     ((error_message ev = None \/ error_message ev = Some []) ->
        out = [start_line query;
               response_line (Some (lit "Agent escalated: " ++ no_specific_message))])) /\
  (find is_final_response events = None ->
   out = [start_line query; response_line (Some no_final_response)]).
Proof.
  intros events out. unfold out. rewrite call_agent_async_stdout. fold events.
  split; [|split].
  - intros ev c p ps Hf Hc Hp. rewrite Hf. unfold resolve, first_part.
    now rewrite Hc, Hp.
  - intros ev Hf Hfp Hesc. rewrite Hf. unfold resolve. rewrite Hfp, Hesc.
    split.
    + intros m Hm Hne. rewrite Hm. unfold message_or_default.
      destruct m; [contradiction|reflexivity].
    + intros [Hm|Hm]; now rewrite Hm.
  - intros Hf. now rewrite Hf.
Qed.

(** ** C5: the loop stops at the first final event: with [k] non-final
    events before it, exactly [k + 1] events are requested, and whatever
    the generator would yield afterwards has no influence on the turn. *)
Theorem call_agent_async_stops_at_final
  (query : pystr) (runner runner' : Runner) (uid sid : pystr)
  (pre : list Event) (ev : Event) (post post' : list Event)
  (Hpre : Forall not_final pre)
  (Hev : is_final_response ev = true)
  (Hrun : runner uid sid (user_message query) = pre ++ ev :: post)
  (Hrun' : runner' uid sid (user_message query) = pre ++ ev :: post') :
  anext_calls (call_agent_async query runner uid sid) = S (List.length pre) /\
  call_agent_async query runner uid sid = call_agent_async query runner' uid sid.
Proof.
  unfold call_agent_async. rewrite Hrun, Hrun', !(drain_prefix pre ev _ _ Hpre Hev).
  split; reflexivity.
Qed.

(** ** C10: a first final event with no content parts and no escalation
    leaves the placeholder in place, so the turn reports exactly what it
    reports for an event stream that never produces a final event. *)
Theorem call_agent_async_silent_final
  (query : pystr) (runner runner' : Runner) (uid sid : pystr) (ev : Event)
  (Hf : find is_final_response (runner uid sid (user_message query)) = Some ev)
  (Hnc : first_part ev = None)
  (Hne : escalated ev = false)
  (Hexh : Forall not_final (runner' uid sid (user_message query))) :
  stdout (call_agent_async query runner uid sid) =
    [start_line query; response_line (Some no_final_response)] /\
  stdout (call_agent_async query runner' uid sid) =
    stdout (call_agent_async query runner uid sid).
Proof.
  rewrite !call_agent_async_stdout, Hf, (find_none_not_final _ Hexh).
  unfold resolve. rewrite Hnc, Hne. split; reflexivity.
Qed.

End DriverFacts.

(* ================================================================== *)
(** * Evaluations at concrete inputs *)

Module Checks.
Import Py Weather Sample.

(** C2 at the city [" \t"]. *)
Lemma get_weather_blank_city_witness :
  Forall (fun c => is_space c = true) [32; 9] /\
  get_weather decode_ascii (loads_of [full_doc]) str_scalar
    (serve nairobi_url (Some 200) full_doc) [32; 9] =
  (inr (error_dict blank_city_msg), []).
Proof.
  split; [repeat constructor|].
  apply WeatherFacts.get_weather_blank_city. repeat constructor.
Defined.

(** C3: a body without [temp_C], [feelslike_C] and [humidity] yields a
    success report with [None] in their places, not an error. *)
Lemma get_weather_missing_fields_success :
  dict_get partial_cur (lit "temp_C") = None /\
  dict_get partial_cur (lit "feelslike_C") = None /\
  dict_get partial_cur (lit "humidity") = None /\
  get_weather decode_ascii (loads_of [partial_doc]) str_scalar
    (serve nairobi_url None partial_doc) nairobi =
  (inr (success_dict
          (lit "Weather in Nairobi is Sunny, temperature None" ++ [176] ++
           lit "c (feels like None" ++ [176] ++ lit "c), humidity None%.")
          partial_doc),
   [(nairobi_url, 10)]).
Proof. vm_compute. repeat split. Qed.

(** C3 (amended) at the complete body. *)
Lemma get_weather_parse_outcome_witness :
  get_weather decode_ascii (loads_of [full_doc]) str_scalar
    (serve nairobi_url None full_doc) nairobi =
  (inr (success_dict
          (weather_report str_scalar nairobi (JStr (lit "Sunny")) (JStr (lit "25"))
             (JStr (lit "26")) (JStr (lit "40")))
          full_doc),
   [(nairobi_url, 10)]).
Proof.
  refine (proj1 (WeatherFacts.get_weather_parse_outcome decode_ascii (loads_of [full_doc])
                   str_scalar (serve nairobi_url None full_doc) nairobi nairobi
                   (mkResponse None (inr (dumps full_doc))) (dumps full_doc) (dumps full_doc)
                   full_doc _ _ _ _ _ _ _)
                full_kvs full_cur sunny_desc [] [] eq_refl eq_refl eq_refl).
  - now apply Exists_cons_hd.
  - reflexivity.
  - vm_compute. reflexivity.
  - now left.
  - reflexivity.
  - vm_compute. reflexivity.
  - vm_compute. reflexivity.
Defined.

(** C7 at the complete body: the success report, and its shape. *)
Lemma get_weather_result_shape_witness :
  get_weather decode_ascii (loads_of [full_doc]) str_scalar
    (serve nairobi_url (Some 200) full_doc) nairobi =
  (inr (success_dict
          (weather_report str_scalar nairobi (JStr (lit "Sunny")) (JStr (lit "25"))
             (JStr (lit "26")) (JStr (lit "40")))
          full_doc), [(nairobi_url, 10)]) /\
  exists d log,
    get_weather decode_ascii (loads_of [full_doc]) str_scalar
      (serve nairobi_url (Some 200) full_doc) nairobi = (inr d, log) /\
    ((exists m, d = error_dict m) \/
     (exists enc resp raw body kvs cur wd rest1 rest2,
        Quote.quote nairobi = inr enc /\
        serve nairobi_url (Some 200) full_doc (weather_url enc) 10 = inr resp /\
        WeatherFacts.status_ok (status resp) /\
        read resp = inr raw /\ decode_ascii raw = inr body /\
        loads_of [full_doc] body = inr (JObj kvs) /\
        get_or kvs (lit "current_condition") (JArr []) = JArr (JObj cur :: rest1) /\
        get_or cur (lit "weatherDesc") (JArr [JObj []]) = JArr (JObj wd :: rest2) /\
        d = success_dict
              (weather_report str_scalar nairobi (get_or wd (lit "value") JNull)
                 (get_or cur (lit "temp_C") JNull) (get_or cur (lit "feelslike_C") JNull)
                 (get_or cur (lit "humidity") JNull))
              (JObj kvs))).
Proof.
  destruct (WeatherFacts.get_weather_result_shape decode_ascii (loads_of [full_doc])
              str_scalar (serve nairobi_url (Some 200) full_doc) nairobi) as [Hok Hshape].
  split.
  - refine (Hok nairobi (mkResponse (Some 200) (inr (dumps full_doc))) (dumps full_doc)
              (dumps full_doc) full_kvs full_cur sunny_desc [] [] _ _ _ _ _ _ _ _ _).
    + now apply Exists_cons_hd.
    + reflexivity.
    + vm_compute. reflexivity.
    + now right.
    + reflexivity.
    + vm_compute. reflexivity.
    + vm_compute. reflexivity.
    + reflexivity.
    + reflexivity.
  - do 2 eexists. split; [reflexivity|]. eapply Hshape. reflexivity.
Defined.

(** C9: two networks that differ except on the requested URL. *)
Lemma get_weather_deterministic_witness :
  get_weather decode_ascii (loads_of [full_doc]) str_scalar
    (serve nairobi_url (Some 200) full_doc) nairobi =
  get_weather decode_ascii (loads_of [full_doc]) str_scalar
    (serve_only nairobi_url (Some 200) full_doc) nairobi.
Proof.
  apply WeatherFacts.get_weather_deterministic.
  intros enc Hq. vm_compute in Hq. injection Hq as <-. vm_compute. reflexivity.
Defined.

Import Driver DriverSample.

(** C5 on the stream [non-final; final "Sunny, 25°C"; third]: two
    requests, and the third event is never looked at. *)
Lemma call_agent_async_stops_at_final_witness :
  stdout (call_agent_async query (stream [tool_call_event; sunny_final; tool_call_event]) uid sid)
    = [start_line query; response_line (Some sunny)] /\
  anext_calls (call_agent_async query
                 (stream [tool_call_event; sunny_final; tool_call_event]) uid sid) = 2%nat /\
  call_agent_async query (stream [tool_call_event; sunny_final; tool_call_event]) uid sid =
  call_agent_async query (stream [tool_call_event; sunny_final]) uid sid.
Proof.
  split; [reflexivity|].
  apply (DriverFacts.call_agent_async_stops_at_final query
           (stream [tool_call_event; sunny_final; tool_call_event])
           (stream [tool_call_event; sunny_final]) uid sid
           [tool_call_event] sunny_final [tool_call_event] []).
  - repeat constructor.
  - reflexivity.
  - reflexivity.
  - reflexivity.
Defined.

(** C10 with a silent final event against an empty stream. *)
Lemma call_agent_async_silent_final_witness :
  stdout (call_agent_async query (stream [tool_call_event; silent_final]) uid sid) =
    [start_line query; response_line (Some no_final_response)] /\
  stdout (call_agent_async query (stream []) uid sid) =
    stdout (call_agent_async query (stream [tool_call_event; silent_final]) uid sid).
Proof.
  apply (DriverFacts.call_agent_async_silent_final query
           (stream [tool_call_event; silent_final]) (stream []) uid sid silent_final);
    try reflexivity.
  constructor.
Defined.

End Checks.

(* ================================================================== *)
(** * Further properties of the code *)

(** ** [quote] as used by [get_weather] *)

Module QuoteFacts.
Import Py Quote Unquote.

(** The code points a Python [str] can hold. *)
Definition py_char (c : Z) : Prop := 0 <= c <= 1114111.

Definition is_byte (b : Z) : Prop := 0 <= b < 256.

Ltac decide_ltb :=
  repeat match goal with
  | |- context [?a <? ?b] =>
      destruct (Z.ltb_spec a b); try (exfalso; Z.div_mod_to_equations; lia)
  end.

Lemma utf8_char_bytes (c : Z) : py_char c -> Forall is_byte (utf8_char c).
Proof.
  unfold py_char, is_byte, utf8_char. intros Hc.
  decide_ltb; repeat constructor; Z.div_mod_to_equations; lia.
Qed.

Lemma utf8_char_decode (c : Z) (rest : list Z) :
  py_char c -> is_surrogate c = false ->
  utf8_decode (utf8_char c ++ rest) = option_map (cons c) (utf8_decode rest).
Proof.
  unfold py_char, is_surrogate, utf8_char. intros Hc Hs.
  destruct (Z.ltb_spec c 128); [cbn [app utf8_decode]; decide_ltb; reflexivity|].
  destruct (Z.ltb_spec c 2048).
  { cbn [app utf8_decode]. decide_ltb. f_equal. f_equal. Z.div_mod_to_equations; lia. }
  destruct (Z.ltb_spec c 65536).
  { cbn [app utf8_decode]. decide_ltb. f_equal. f_equal. Z.div_mod_to_equations; lia. }
  cbn [app utf8_decode]. decide_ltb. f_equal. f_equal. Z.div_mod_to_equations; lia.
Qed.

Lemma encode_utf8_spec (pos : Z) (s : pystr) (bs : list Z) :
  Forall py_char s -> encode_utf8 pos s = inr bs ->
  Forall is_byte bs /\ utf8_decode bs = Some s.
Proof.
  intros H; revert pos bs. induction H as [|c t Hc _ IH]; intros pos bs; simpl.
  - intros E; injection E as <-. split; [constructor|reflexivity].
  - destruct (is_surrogate c) eqn:Hs; [discriminate|].
    destruct (encode_utf8 (pos + 1) t) as [e|bs'] eqn:E; [discriminate|].
    intros E'; injection E' as <-.
    destruct (IH _ _ E) as [Hb Hd]. split.
    + apply Forall_app. split; [now apply utf8_char_bytes|exact Hb].
    + now rewrite utf8_char_decode, Hd.
Qed.

Lemma hex_digit_upper_decode (n : Z) :
  0 <= n < 16 -> from_hex (hex_digit_upper n) = Some n.
Proof.
  intros Hn. unfold hex_digit_upper, from_hex.
  destruct (Z.ltb_spec n 10).
  - replace ((48 <=? 48 + n) && (48 + n <=? 57)) with true
      by (symmetry; apply andb_true_intro; split; apply Z.leb_le; lia).
    f_equal; lia.
  - replace ((48 <=? 55 + n) && (55 + n <=? 57)) with false
      by (symmetry; apply andb_false_iff; right; apply Z.leb_gt; lia).
    replace ((65 <=? 55 + n) && (55 + n <=? 70)) with true
      by (symmetry; apply andb_true_intro; split; apply Z.leb_le; lia).
    f_equal; lia.
Qed.

Lemma quote_byte_decode (b : Z) (rest : pystr) :
  is_byte b ->
  percent_decode
    ((if quote_safe b then [b]
      else [37; hex_digit_upper (b / 16); hex_digit_upper (b mod 16)]) ++ rest) =
  option_map (cons b) (percent_decode rest).
Proof.
  unfold is_byte. intros Hb. destruct (quote_safe b) eqn:Hs.
  - simpl. destruct (Z.eqb_spec b 37) as [->|]; [discriminate Hs|reflexivity].
  - simpl.
    rewrite (hex_digit_upper_decode (b / 16)) by (Z.div_mod_to_equations; lia).
    rewrite (hex_digit_upper_decode (b mod 16)) by (Z.div_mod_to_equations; lia).
    destruct (percent_decode rest); simpl; [|reflexivity].
    do 3 f_equal. Z.div_mod_to_equations; lia.
Qed.

Lemma quote_from_bytes_decode (bs : list Z) :
  Forall is_byte bs -> percent_decode (quote_from_bytes bs) = Some bs.
Proof.
  induction 1 as [|b t Hb _ IH]; [reflexivity|].
  unfold quote_from_bytes. simpl. fold (quote_from_bytes t).
  now rewrite quote_byte_decode, IH.
Qed.

Lemma hex_digit_upper_safe (n : Z) :
  0 <= n < 16 -> quote_safe (hex_digit_upper n) = true.
Proof.
  intros Hn. unfold hex_digit_upper, quote_safe.
  destruct (Z.ltb_spec n 10).
  - assert (E : (48 <=? 48 + n) && (48 + n <=? 57) = true)
      by (apply andb_true_intro; split; apply Z.leb_le; lia).
    rewrite E. now rewrite !orb_true_r.
  - assert (E : (65 <=? 55 + n) && (55 + n <=? 90) = true)
      by (apply andb_true_intro; split; apply Z.leb_le; lia).
    now rewrite E.
Qed.

Lemma quote_from_bytes_safe (bs : list Z) :
  Forall is_byte bs ->
  Forall (fun c => quote_safe c = true \/ c = 37) (quote_from_bytes bs).
Proof.
  induction 1 as [|b t Hb _ IH]; [constructor|].
  unfold quote_from_bytes. simpl. fold (quote_from_bytes t).
  apply Forall_app. split; [|exact IH].
  unfold is_byte in Hb. destruct (quote_safe b) eqn:Hs.
  - constructor; [now left|constructor].
  - constructor; [now right|].
    constructor; [left; apply hex_digit_upper_safe; Z.div_mod_to_equations; lia|].
    constructor; [left; apply hex_digit_upper_safe; Z.div_mod_to_equations; lia|].
    constructor.
Qed.

Lemma quote_unquote (s u : pystr) :
  Forall py_char s -> quote s = inr u -> unquote u = Some s.
Proof.
  intros Hs Hq. unfold quote in Hq. destruct s as [|c t].
  - injection Hq as <-. reflexivity.
  - destruct (encode_utf8 0 (c :: t)) as [e|bs] eqn:E; [discriminate|].
    injection Hq as <-. destruct (encode_utf8_spec _ _ _ Hs E) as [Hb Hd].
    unfold unquote. now rewrite quote_from_bytes_decode.
Qed.

(** [quote] of a Python [str] is undone by percent- then UTF-8 decoding. *)
Theorem quote_roundtrip (s u : pystr) :
  Forall py_char s -> quote s = inr u -> unquote u = Some s.
Proof. apply quote_unquote. Qed.

(** What [quote] produces is made only of unreserved characters, ['/']
    and ['%'] escapes: no space, ['?'], ['#'] or ['&'] of the city reaches
    the URL unescaped. *)
Theorem quote_output_safe (s u : pystr) :
  Forall py_char s -> quote s = inr u ->
  Forall (fun c => quote_safe c = true \/ c = 37) u.
Proof.
  intros Hs Hq. unfold quote in Hq. destruct s as [|c t].
  - injection Hq as <-. constructor.
  - destruct (encode_utf8 0 (c :: t)) as [e|bs] eqn:E; [discriminate|].
    injection Hq as <-. destruct (encode_utf8_spec _ _ _ Hs E) as [Hb _].
    now apply quote_from_bytes_safe.
Qed.

Lemma encode_utf8_raises (s : pystr) :
  Exists (fun c => is_surrogate c = true) s ->
  forall pos, exists e, encode_utf8 pos s = inl e.
Proof.
  induction 1 as [c t Hc|c t _ IH]; intros pos; simpl.
  - rewrite Hc. eauto.
  - destruct (is_surrogate c); [eauto|].
    destruct (IH (pos + 1)) as [e ->]. eauto.
Qed.

Lemma quote_surrogate_iff (s : pystr) :
  (exists e, quote s = inl e) <-> Exists (fun c => is_surrogate c = true) s.
Proof.
  split.
  - intros [e He]. destruct (Exists_dec (fun c => is_surrogate c = true) s)
      as [Hx|Hn]; [intros c; destruct (is_surrogate c); auto|exact Hx|].
    exfalso. assert (Hf : Forall (fun c => is_surrogate c = false) s).
    { apply Forall_forall. intros c Hc. destruct (is_surrogate c) eqn:E; [|reflexivity].
      exfalso. apply Hn, Exists_exists. eauto. }
    destruct (WeatherFacts.quote_ok s Hf) as [u Hu]. congruence.
  - unfold quote. intros Hx. destruct s as [|c t]; [inversion Hx|].
    destruct (encode_utf8_raises _ Hx 0) as [e ->]. eauto.
Qed.

(** [quote] raises exactly on a [str] holding a lone surrogate. *)
Theorem quote_raises_iff (s : pystr) :
  (exists e, quote s = inl e) <-> Exists (fun c => is_surrogate c = true) s.
Proof. apply quote_surrogate_iff. Qed.

End QuoteFacts.

(* ================================================================== *)
(** * More properties of [get_weather] *)

Module WeatherExtra.
Import Py Weather WeatherFacts QuoteFacts.

Lemma error_dict_inj (m1 m2 : pystr) : error_dict m1 = error_dict m2 -> m1 = m2.
Proof. unfold error_dict. intros H. now injection H. Qed.

Lemma error_success (m r : pystr) (data : json) : error_dict m <> success_dict r data.
Proof. discriminate. Qed.

Lemma blank_or_not (city : pystr) :
  Forall (fun c => is_space c = true) city \/ Exists (fun c => is_space c = false) city.
Proof.
  induction city as [|c t [IH|IH]].
  - now left.
  - destruct (is_space c) eqn:E; [left; now constructor|right; now constructor].
  - right. now apply Exists_cons_tl.
Qed.

Lemma not_blank_guard (city : pystr) :
  Forall (fun c => is_space c = true) city ->
  negb (truthy city) || negb (truthy (strip city)) = true.
Proof. intros H. rewrite (strip_blank city H). now rewrite orb_true_r. Qed.

Section Lib.
Variable decode_utf8 : list Z -> exc + pystr.
Variable json_loads : pystr -> exc + json.
Variable str_json : json -> pystr.

Let fetch := fetch decode_utf8 json_loads.
Let parse := parse str_json.
Let get_weather := get_weather decode_utf8 json_loads str_json.

Lemma parse_log (city : pystr) (data : json) : snd (parse city data) = [].
Proof.
  destruct (parse_cases str_json city data) as [(kvs & cur & wd & r1 & r2 & -> & E1 & E2)|[e He]].
  - unfold parse. now rewrite (parse_extract str_json city kvs cur wd r1 r2 E1 E2).
  - unfold parse. now rewrite He.
Qed.

Lemma parse_message (city : pystr) (data : json) (m : pystr) :
  fst (parse city data) = inr (error_dict m) -> exists x, m = parse_error_msg x.
Proof.
  destruct (parse_cases str_json city data) as [(kvs & cur & wd & r1 & r2 & -> & E1 & E2)|[e He]].
  - unfold parse. rewrite (parse_extract str_json city kvs cur wd r1 r2 E1 E2).
    intros H. simpl in H.
    apply (f_equal (fun r => match r with inr d => List.length d | inl _ => O end)) in H.
    discriminate H.
  - unfold parse. rewrite He. intros H. simpl in H.
    assert (E : error_dict (parse_error_msg (exc_str e)) = error_dict m) by congruence.
    apply error_dict_inj in E. eauto.
Qed.

Lemma inr_inl_eq {A B C : Type} (a d : B) :
  (inr (inl a) : A + (B + C)) = inr (inl d) -> d = a.
Proof. congruence. Qed.

Lemma fetch_message (net : Net) (url : pystr) (d : dict) :
  fst (fetch net url) = inr (inl d) -> exists x, d = error_dict (fetch_error_msg x).
Proof.
  unfold fetch, Weather.fetch, urlopen, read_body, try_except, bind, lift, ret.
  destruct (net url 10) as [e|resp]; simpl.
  - intros H; apply inr_inl_eq in H; subst; eauto.
  - destruct (status resp) as [st|]; [destruct (negb (st =? 200))|]; simpl;
      try (intros H; apply inr_inl_eq in H; subst; eauto; fail);
      destruct (read resp) as [e|raw]; simpl;
      try (intros H; apply inr_inl_eq in H; subst; eauto; fail);
      destruct (decode_utf8 raw) as [e|body]; simpl;
      try (intros H; apply inr_inl_eq in H; subst; eauto; fail);
      destruct (json_loads body) as [e|data]; simpl;
      intros H; try discriminate H; apply inr_inl_eq in H; subst; eauto.
Qed.

Lemma get_weather_log (net : Net) (city : pystr) :
  snd (get_weather net city) =
  if negb (truthy city) || negb (truthy (strip city)) then []
  else match Quote.quote city with
       | inl _ => []
       | inr enc => [(weather_url enc, 10)]
       end.
Proof.
  unfold get_weather, Weather.get_weather.
  destruct (negb (truthy city) || negb (truthy (strip city))); [reflexivity|].
  destruct (Quote.quote city) as [e|enc]; [reflexivity|].
  unfold lift. rewrite bind_inr. simpl.
  destruct (fetch_cases decode_utf8 json_loads net (weather_url enc)) as [Hl [[m Hm]|Hd]].
  - fold fetch. rewrite (bind_fst_inr _ _ _ Hm), Hl. reflexivity.
  - destruct Hd as (resp & raw & body & data & _ & _ & _ & _ & _ & Hd).
    fold fetch. rewrite (bind_fst_inr _ _ _ Hd), Hl. simpl. fold parse.
    now rewrite parse_log.
Qed.

(** [get_weather] sends at most one request, and which one depends on the
    city only: none when the guard of line 55 rejects the city or [quote]
    raises, otherwise [GET https://wttr.in/<quote(city)>?format=j1] with
    timeout 10, whatever the network answers. *)
Theorem get_weather_requests (net : Net) (city : pystr) :
  snd (get_weather net city) =
  if negb (truthy city) || negb (truthy (strip city)) then []
  else match Quote.quote city with
       | inl _ => []
       | inr enc => [(weather_url enc, 10)]
       end.
Proof. apply get_weather_log. Qed.

(** [get_weather] raises exactly for a non-blank city holding a lone
    surrogate, and then it has sent no request. *)
Theorem get_weather_raises_iff (net : Net) (city : pystr) :
  ((exists e, fst (get_weather net city) = inl e) <->
   Exists (fun c => is_space c = false) city /\
   Exists (fun c => Quote.is_surrogate c = true) city) /\
  (forall e, fst (get_weather net city) = inl e -> snd (get_weather net city) = []).
Proof.
  destruct (blank_or_not city) as [Hb|Hn].
  - unfold get_weather, Weather.get_weather. rewrite (not_blank_guard city Hb).
    split; [split|].
    + intros [e He]. discriminate He.
    + intros [Hn _]. exfalso. apply Exists_exists in Hn as [c [Hc Hs]].
      rewrite Forall_forall in Hb. rewrite (Hb c Hc) in Hs. discriminate Hs.
    + intros e He. discriminate He.
  - destruct (Quote.quote city) as [e|enc] eqn:Hq.
    + unfold get_weather. rewrite (get_weather_unfold _ _ _ _ _ Hn), Hq.
      split; [split|].
      * intros _. split; [exact Hn|]. apply quote_surrogate_iff. eauto.
      * intros _. now exists e.
      * reflexivity.
    + destruct (get_weather_total_after_quote decode_utf8 json_loads str_json net city enc Hq)
        as [d Hd].
      fold get_weather in Hd. rewrite Hd. split; [split|].
      * intros [e He]. discriminate He.
      * intros [_ Hs]. apply quote_surrogate_iff in Hs as [e He]. congruence.
      * intros e He. discriminate He.
Qed.

(** Every error [get_weather] returns carries one of three messages:
    ["City must be non-empty string."], and then the city is blank;
    ["Error fetching weather data: <x>."]; or
    ["Error parsing weather data: <x>."]. *)
Theorem get_weather_error_message (net : Net) (city m : pystr)
  (H : fst (get_weather net city) = inr (error_dict m)) :
  (m = blank_city_msg /\ Forall (fun c => is_space c = true) city) \/
  (exists x, m = fetch_error_msg x) \/
  (exists x, m = parse_error_msg x).
Proof.
  destruct (blank_or_not city) as [Hb|Hn].
  - unfold get_weather, Weather.get_weather in H. rewrite (not_blank_guard city Hb) in H.
    simpl in H. left. split; [|exact Hb].
    assert (E : error_dict blank_city_msg = error_dict m) by congruence.
    symmetry. exact (error_dict_inj _ _ E).
  - unfold get_weather in H. rewrite (get_weather_unfold _ _ _ _ _ Hn) in H.
    destruct (Quote.quote city) as [e|enc]; [discriminate H|].
    destruct (fetch_total decode_utf8 json_loads net (weather_url enc)) as [r Hr].
    rewrite (bind_fst_inr _ _ _ Hr) in H. simpl in H.
    destruct r as [d|data]; simpl in H.
    + right; left. destruct (fetch_message net _ d Hr) as [x ->].
      exists x. apply error_dict_inj. congruence.
    + right; right. exact (parse_message city data m H).
Qed.

(** Distinct cities never lead to the same request: the URL [get_weather]
    requests determines the city. *)
Theorem get_weather_distinct_requests (net1 net2 : Net) (c1 c2 url : pystr) (t1 t2 : Z)
  (H1 : Forall py_char c1) (H2 : Forall py_char c2)
  (R1 : snd (get_weather net1 c1) = [(url, t1)])
  (R2 : snd (get_weather net2 c2) = [(url, t2)]) :
  c1 = c2.
Proof.
  rewrite get_weather_log in R1, R2.
  destruct (negb (truthy c1) || negb (truthy (strip c1))); [discriminate R1|].
  destruct (negb (truthy c2) || negb (truthy (strip c2))); [discriminate R2|].
  destruct (Quote.quote c1) as [e1|u1] eqn:Q1; [discriminate R1|].
  destruct (Quote.quote c2) as [e2|u2] eqn:Q2; [discriminate R2|].
  injection R1 as U1 _. injection R2 as U2 _.
  rewrite <- U2 in U1. unfold weather_url in U1.
  apply app_inv_head, app_inv_tail in U1. subst u2.
  apply quote_unquote in Q1; [|exact H1]. apply quote_unquote in Q2; [|exact H2].
  congruence.
Qed.

End Lib.

End WeatherExtra.

(* ================================================================== *)
(** * Properties of [call_agent_async] *)


Module DriverExtra.
Import Py Driver DriverFacts.

Lemma drain_all (events : list Event) (t : option pystr) :
  Forall not_final events -> drain events t = (t, S (List.length events)).
Proof.
  induction 1 as [|ev rest Hev _ IH]; [reflexivity|]. simpl.
  unfold not_final in Hev. now rewrite Hev, IH.
Qed.

(** When no event of the turn is final, the loop drains the whole
    generator ([n] events, then the request answered by
    [StopAsyncIteration]) and reports the placeholder. *)
Theorem call_agent_async_exhausts (query : pystr) (runner : Runner) (uid sid : pystr)
  (H : Forall not_final (runner uid sid (user_message query))) :
  anext_calls (call_agent_async query runner uid sid) =
    S (List.length (runner uid sid (user_message query))) /\
  stdout (call_agent_async query runner uid sid) =
    [start_line query; response_line (Some no_final_response)].
Proof.
  unfold call_agent_async. rewrite (drain_all _ _ H). split; reflexivity.
Qed.

End DriverExtra.

(* ================================================================== *)
(** * Properties of the session/runner set-up and of [main] *)

Module OrchestrationFacts.
Import Py Driver Orchestration.
Local Open Scope nat_scope.

Definition session_line : pystr :=
  lit "Session created: App='" ++ APP_NAME ++ lit "', User='" ++ USER_ID ++
  lit "', Session='" ++ SESSION_ID ++ lit "'".

Definition runner_line : pystr :=
  lit "Runner initialized for agent '" ++ root_agent_name ++ lit "'.".

Definition error_line (e : exc) : pystr := lit "Error occurred in main(): " ++ exc_str e.

Section World.
Variable create_session : list Call -> nat -> pystr -> pystr -> pystr -> exc + nat.
Variable run_async : list Call -> RunnerObj -> pystr -> pystr -> Content ->
                     (list Event * option exc)%type.

Let init := init_default_runner create_session.

(** The service [init_default_runner] uses and the state once it is set. *)
Definition service_of (st : St) : nat * St :=
  let g := globals st in
  match session_service g with
  | None => (next_id st,
             mkSt (mkGlobals (Some (next_id st)) (session g) (runner g)) (S (next_id st))
               (calls st ++ [NewSessionService (next_id st)]) (out st))
  | Some svc => (svc, st)
  end.

Lemma init_spec (st : St) :
  init st =
  let (svc, st0) := service_of st in
  let calls1 := calls st0 ++ [CreateSession svc APP_NAME USER_ID SESSION_ID] in
  let r := mkRunner root_agent_name APP_NAME svc in
  match create_session (calls st0) svc APP_NAME USER_ID SESSION_ID with
  | inl e => (inl e, mkSt (globals st0) (next_id st0) calls1 (out st0))
  | inr sess =>
      (inr tt, mkSt (mkGlobals (Some svc) (Some sess) (Some r)) (next_id st0)
                 (calls1 ++ [NewRunner r]) (out st0 ++ [session_line; runner_line]))
  end.
Proof.
  destruct st as [[[svc|] se ru] n cs o]; unfold init, init_default_runner, service_of;
    cbn -[APP_NAME USER_ID SESSION_ID root_agent_name lit app];
    destruct (create_session _ _ _ _ _); unfold print;
    cbn -[APP_NAME USER_ID SESSION_ID root_agent_name lit app];
    try reflexivity; repeat rewrite <- app_assoc; reflexivity.
Qed.

Lemma sbind_ok {A B} (m : SM A) (f : A -> SM B) (st st' : St) (a : A) :
  m st = (inr a, st') -> sbind m f st = f a st'.
Proof. unfold sbind. now intros ->. Qed.

Lemma sbind_err {A B} (m : SM A) (f : A -> SM B) (st st' : St) (e : exc) :
  m st = (inl e, st') -> sbind m f st = (inl e, st').
Proof. unfold sbind. now intros ->. Qed.

Lemma sbind_fst_err {A B} (m : SM A) (f : A -> SM B) (st : St) (e : exc) :
  fst (sbind m f st) = inl e ->
  fst (m st) = inl e \/ exists a, fst (m st) = inr a /\ fst (f a (snd (m st))) = inl e.
Proof.
  unfold sbind. destruct (m st) as [[e'|a] st']; simpl; intros H.
  - left. congruence.
  - right. eauto.
Qed.

(** The state after a turn that completes. *)
Definition after_turn (st : St) (r : RunnerObj) (q : pystr) : St :=
  let msg := user_message q in
  mkSt (globals st) (next_id st)
    (calls st ++ [RunAsync r USER_ID SESSION_ID msg])
    (out st ++ stdout (call_agent_async q
                         (fun _ _ _ => fst (run_async (calls st) r USER_ID SESSION_ID msg))
                         USER_ID SESSION_ID)).

Lemma ask_ok (st : St) (r : RunnerObj) (q : pystr) :
  runner (globals st) = Some r ->
  snd (run_async (calls st) r USER_ID SESSION_ID (user_message q)) = None ->
  ask run_async q st = (inr tt, after_turn st r q).
Proof.
  intros Hr Hn. unfold ask, sbind, get_globals. rewrite Hr.
  unfold call_agent_async_io, after_turn.
  destruct (run_async (calls st) r USER_ID SESSION_ID (user_message q)) as [evs stop].
  simpl in Hn. subst stop. now destruct (existsb is_final_response evs).
Qed.

Lemma ask_raises (st : St) (r : RunnerObj) (q : pystr) (evs : list Event) (e : exc) :
  runner (globals st) = Some r ->
  run_async (calls st) r USER_ID SESSION_ID (user_message q) = (evs, Some e) ->
  existsb is_final_response evs = false ->
  ask run_async q st =
  (inl e, mkSt (globals st) (next_id st)
            (calls st ++ [RunAsync r USER_ID SESSION_ID (user_message q)])
            (out st ++ [start_line q])).
Proof.
  intros Hr Hrun Hf. unfold ask, sbind, get_globals. rewrite Hr.
  unfold call_agent_async_io. rewrite Hrun, Hf. reflexivity.
Qed.

(** A turn only raises what the runner's stream raises, and leaves the
    module globals alone. *)
Lemma ask_cases (st : St) (r : RunnerObj) (q : pystr) :
  runner (globals st) = Some r ->
  globals (snd (ask run_async q st)) = globals st /\
  forall e, fst (ask run_async q st) = inl e ->
    exists evs, run_async (calls st) r USER_ID SESSION_ID (user_message q) = (evs, Some e).
Proof.
  intros Hr. unfold ask, sbind, get_globals. rewrite Hr. unfold call_agent_async_io.
  destruct (run_async (calls st) r USER_ID SESSION_ID (user_message q)) as [evs [e'|]].
  - destruct (existsb is_final_response evs); simpl; split; try reflexivity.
    + intros e He. discriminate He.
    + intros e He. injection He as <-. eauto.
  - destruct (existsb is_final_response evs); simpl; split; try reflexivity;
      intros e He; discriminate He.
Qed.

Lemma run_conversation_ready (st : St) (r : RunnerObj) :
  runner (globals st) = Some r ->
  run_conversation create_session run_async st =
  (ask run_async q_nairobi ;;; ask run_async q_new_york ;;; ask run_async q_london) st.
Proof.
  intros Hr. unfold run_conversation, sbind at 1, get_globals. rewrite Hr.
  unfold sbind at 1, sret. unfold sbind at 1, get_globals. now rewrite Hr.
Qed.

Lemma init_ok_runner (st st' : St) :
  init st = (inr tt, st') ->
  exists svc, runner (globals st') = Some (mkRunner root_agent_name APP_NAME svc).
Proof.
  rewrite init_spec. destruct (service_of st) as [svc st0].
  destruct (create_session (calls st0) svc APP_NAME USER_ID SESSION_ID); intros H;
    [discriminate H|]. injection H as <-. simpl. eauto.
Qed.

Lemma init_err (st : St) (e : exc) :
  fst (init st) = inl e ->
  exists h svc a u s, create_session h svc a u s = inl e.
Proof.
  rewrite init_spec. destruct (service_of st) as [svc st0].
  destruct (create_session (calls st0) svc APP_NAME USER_ID SESSION_ID) eqn:E;
    simpl; intros H; [|discriminate H]. injection H as ->. eauto 6.
Qed.

Definition from_adk (e : exc) : Prop :=
  (exists h svc a u s, create_session h svc a u s = inl e) \/
  (exists h r u s m evs, run_async h r u s m = (evs, Some e)).

Lemma three_turns_err (st : St) (r : RunnerObj) (e : exc) :
  runner (globals st) = Some r ->
  fst ((ask run_async q_nairobi ;;; ask run_async q_new_york ;;; ask run_async q_london) st)
    = inl e ->
  from_adk e.
Proof.
  intros Hr H. right.
  destruct (ask_cases st r q_nairobi Hr) as [G1 E1].
  apply sbind_fst_err in H as [H|[a1 [_ H]]]; [destruct (E1 e H) as [evs Hevs]; eauto 7|].
  set (st1 := snd (ask run_async q_nairobi st)) in *.
  assert (Hr1 : runner (globals st1) = Some r) by now rewrite G1.
  destruct (ask_cases st1 r q_new_york Hr1) as [G2 E2].
  apply sbind_fst_err in H as [H|[a2 [_ H]]]; [destruct (E2 e H) as [evs Hevs]; eauto 7|].
  set (st2 := snd (ask run_async q_new_york st1)) in *.
  assert (Hr2 : runner (globals st2) = Some r) by now rewrite G2.
  destruct (ask_cases st2 r q_london Hr2) as [_ E3].
  destruct (E3 e H) as [evs Hevs]; eauto 7.
Qed.

Lemma run_conversation_err (st : St) (e : exc) :
  fst (run_conversation create_session run_async st) = inl e -> from_adk e.
Proof.
  intros H. destruct (runner (globals st)) as [r|] eqn:Hr.
  - rewrite (run_conversation_ready st r Hr) in H. exact (three_turns_err st r e Hr H).
  - unfold run_conversation, sbind at 1, get_globals in H. rewrite Hr in H.
    fold init in H. destruct (init st) as [[e'|[]] st'] eqn:Hi.
    + rewrite (sbind_err _ _ _ _ _ Hi) in H. simpl in H. injection H as ->.
      left. apply (init_err st). now rewrite Hi.
    + rewrite (sbind_ok _ _ _ _ _ Hi) in H.
      destruct (init_ok_runner st st' Hi) as [svc Hr'].
      unfold sbind at 1, get_globals in H. rewrite Hr' in H.
      exact (three_turns_err st' _ e Hr' H).
Qed.

(** [run_conversation] and [main] only let out exceptions raised by the
    ADK ([create_session] or a [run_async] stream): the [RuntimeError] of
    line 264 and an [AttributeError] on a [None] runner never occur. *)
Theorem main_raises_only_adk (st : St) (e : exc) :
  (fst (run_conversation create_session run_async st) = inl e -> from_adk e) /\
  (fst (main create_session run_async st) = inl e -> from_adk e).
Proof.
  split; [apply run_conversation_err|].
  unfold main, stry. fold init.
  destruct ((init ;;; run_conversation create_session run_async) st) as [[e0|[]] st0] eqn:E.
  - unfold sbind at 1, print, sraise. simpl. intros H. injection H as <-.
    assert (H0 : fst ((init ;;; run_conversation create_session run_async) st) = inl e0)
      by now rewrite E.
    apply sbind_fst_err in H0 as [H0|[[] [_ H0]]].
    + left. exact (init_err st e0 H0).
    + exact (run_conversation_err _ e0 H0).
  - intros H. discriminate H.
Qed.

(** With a session service already present, [init_default_runner] keeps
    it: no new object is made, the session is (re-)created in that service
    under the same app, user and session ids, and a new runner bound to it
    follows when that succeeds.  So a second initialisation, as when the
    task scheduled at import has run before [main], asks the same service
    for the same session again. *)
Theorem init_default_runner_reuses_service (st : St) (svc : nat)
  (Hsvc : session_service (globals st) = Some svc) :
  session_service (globals (snd (init st))) = Some svc /\
  next_id (snd (init st)) = next_id st /\
  calls (snd (init st)) =
    calls st ++ CreateSession svc APP_NAME USER_ID SESSION_ID ::
      match fst (init st) with
      | inr _ => [NewRunner (mkRunner root_agent_name APP_NAME svc)]
      | inl _ => []
      end.
Proof.
  rewrite init_spec. unfold service_of. rewrite Hsvc.
  destruct (create_session (calls st) svc APP_NAME USER_ID SESSION_ID); simpl.
  - repeat split. now rewrite Hsvc.
  - repeat split. now rewrite <- app_assoc.
Qed.

(** When [create_session] raises, [init_default_runner] leaves [session]
    and [runner] as they were and prints nothing. *)
Theorem init_default_runner_failure (st : St) (e : exc)
  (H : fst (init st) = inl e) :
  session (globals (snd (init st))) = session (globals st) /\
  runner (globals (snd (init st))) = runner (globals st) /\
  out (snd (init st)) = out st.
Proof.
  revert H. rewrite init_spec. unfold service_of.
  destruct (session_service (globals st)) as [svc|];
    cbn [globals session runner next_id calls out];
    destruct (create_session _ _ _ _ _); simpl; intros H; try discriminate H;
    repeat split.
Qed.

Definition r0 : RunnerObj := mkRunner root_agent_name APP_NAME 0.

(** The ADK calls [init_default_runner] makes from the initial state. *)
Definition init_calls : list Call :=
  [NewSessionService 0; CreateSession 0 APP_NAME USER_ID SESSION_ID; NewRunner r0].

Definition turn_call (q : pystr) : Call := RunAsync r0 USER_ID SESSION_ID (user_message q).

(** The lines a completed turn prints, given the calls made before it. *)
Definition turn_out (h : list Call) (q : pystr) : list pystr :=
  stdout (call_agent_async q
            (fun _ _ _ => fst (run_async h r0 USER_ID SESSION_ID (user_message q)))
            USER_ID SESSION_ID).

Lemma init_start_ok (sess : nat) :
  create_session [NewSessionService 0] 0 APP_NAME USER_ID SESSION_ID = inr sess ->
  init start_state =
  (inr tt, mkSt (mkGlobals (Some 0) (Some sess) (Some r0)) 1 init_calls
             [session_line; runner_line]).
Proof.
  intros Hs. rewrite init_spec. unfold service_of, start_state.
  cbn [unset globals session_service session runner next_id calls out app]. now rewrite Hs.
Qed.

(** [main] from a fresh interpreter, when the session is created and no
    stream raises: it initialises once (one service, one session, one
    runner), then sends the three questions in order to that runner for
    [user_001]/[session_001], and prints the two set-up lines followed by
    each turn's two lines. *)
Theorem main_success (sess : nat)
  (Hs : create_session [NewSessionService 0] 0 APP_NAME USER_ID SESSION_ID = inr sess)
  (Hrun : forall h r u s m, snd (run_async h r u s m) = None) :
  let h1 := init_calls ++ [turn_call q_nairobi] in
  let h2 := h1 ++ [turn_call q_new_york] in
  main create_session run_async start_state =
  (inr tt, mkSt (mkGlobals (Some 0) (Some sess) (Some r0)) 1 (h2 ++ [turn_call q_london])
             ([session_line; runner_line] ++ turn_out init_calls q_nairobi ++
              turn_out h1 q_new_york ++ turn_out h2 q_london)).
Proof.
  intros h1 h2. unfold main, stry. fold init.
  rewrite (sbind_ok _ _ _ _ _ (init_start_ok sess Hs)).
  rewrite (run_conversation_ready _ r0) by reflexivity.
  erewrite sbind_ok by (apply ask_ok; [reflexivity|apply Hrun]).
  erewrite sbind_ok by (apply ask_ok; [reflexivity|apply Hrun]).
  rewrite (ask_ok _ r0 q_london) by (reflexivity || apply Hrun).
  unfold after_turn. cbn [globals next_id calls out].
  unfold h2, h1, turn_out, turn_call. now rewrite <- !app_assoc.
Qed.

(** [main] from a fresh interpreter when [create_session] raises [e]:
    ["Error occurred in main(): <e>"] is printed, [e] is re-raised, no
    runner is made and no question is sent. *)
Theorem main_init_failure (e : exc)
  (He : create_session [NewSessionService 0] 0 APP_NAME USER_ID SESSION_ID = inl e) :
  main create_session run_async start_state =
  (inl e, mkSt (mkGlobals (Some 0) None None) 1
            [NewSessionService 0; CreateSession 0 APP_NAME USER_ID SESSION_ID]
            [error_line e]).
Proof.
  unfold main, stry. fold init.
  assert (Hi : init start_state =
               (inl e, mkSt (mkGlobals (Some 0) None None) 1
                         [NewSessionService 0; CreateSession 0 APP_NAME USER_ID SESSION_ID] [])).
  { rewrite init_spec. unfold service_of, start_state.
    cbn [unset globals session_service session runner next_id calls out app]. now rewrite He. }
  rewrite (sbind_err _ _ _ _ _ Hi). reflexivity.
Qed.

(** [main] from a fresh interpreter when the first question's stream
    raises [e] before any final event: the start line of that turn and
    ["Error occurred in main(): <e>"] are printed, [e] is re-raised, and
    the other two questions are never sent. *)
Theorem main_first_turn_failure (sess : nat) (evs : list Event) (e : exc)
  (Hs : create_session [NewSessionService 0] 0 APP_NAME USER_ID SESSION_ID = inr sess)
  (Hrun : run_async init_calls r0 USER_ID SESSION_ID (user_message q_nairobi) = (evs, Some e))
  (Hf : existsb is_final_response evs = false) :
  main create_session run_async start_state =
  (inl e, mkSt (mkGlobals (Some 0) (Some sess) (Some r0)) 1
            (init_calls ++ [turn_call q_nairobi])
            [session_line; runner_line; start_line q_nairobi; error_line e]).
Proof.
  unfold main, stry. fold init.
  rewrite (sbind_ok _ _ _ _ _ (init_start_ok sess Hs)).
  rewrite (run_conversation_ready _ r0) by reflexivity.
  erewrite sbind_err by (apply (ask_raises _ r0 q_nairobi evs e); [reflexivity|exact Hrun|exact Hf]).
  reflexivity.
Qed.

End World.

(** At import: only [init_default_runner()] is ever scheduled, and only
    with a running, open event loop; [MODEL_GPT] makes no difference, the
    [NameError] for [init_gpt_runner] being swallowed after the first task
    was created. *)
Theorem scheduled_tasks_spec (running_loop : option bool) (model_gpt : option pystr) :
  scheduled_tasks running_loop model_gpt =
  match running_loop with
  | Some false => [lit "init_default_runner"]
  | _ => []
  end.
Proof.
  destruct running_loop as [[|]|]; try reflexivity.
  destruct model_gpt as [m|]; [destruct (truthy m) eqn:Hm|];
    unfold scheduled_tasks; try rewrite Hm; vm_compute; reflexivity.
Qed.

End OrchestrationFacts.

(* ================================================================== *)
(** * Evaluations of the further properties at concrete inputs *)

Module ExtraChecks.
Import Py Weather Sample.

Lemma py_chars (s : pystr) :
  forallb (fun c => (0 <=? c) && (c <=? 1114111)) s = true -> Forall QuoteFacts.py_char s.
Proof.
  intros H. apply Forall_forall. intros c Hc. unfold QuoteFacts.py_char.
  rewrite forallb_forall in H. specialize (H c Hc).
  apply andb_prop in H as [H1 H2]. apply Z.leb_le in H1, H2. lia.
Qed.

(** The city ["New York/é"]. *)
Definition new_york_slash : pystr := lit "New York/" ++ [233].

(** [quote("New York/é") == "New%20York/%C3%A9"], which decodes back. *)
Lemma quote_roundtrip_witness :
  Quote.quote new_york_slash = inr (lit "New%20York/%C3%A9") /\
  Unquote.unquote (lit "New%20York/%C3%A9") = Some new_york_slash.
Proof.
  split; [vm_compute; reflexivity|].
  apply (QuoteFacts.quote_roundtrip new_york_slash).
  - apply py_chars. reflexivity.
  - vm_compute. reflexivity.
Defined.

Lemma quote_output_safe_witness :
  Forall (fun c => Quote.quote_safe c = true \/ c = 37) (lit "New%20York/%C3%A9").
Proof.
  apply (QuoteFacts.quote_output_safe new_york_slash).
  - apply py_chars. reflexivity.
  - vm_compute. reflexivity.
Defined.

Definition atlantis : pystr := lit "Atlantis".

Definition no_host : pystr := lit "<urlopen error [Errno -2] Name or service not known>".

(** A city the server does not answer: a fetch error. *)
Lemma get_weather_error_message_witness :
  fst (get_weather decode_ascii (loads_of [full_doc]) str_scalar
         (serve nairobi_url (Some 200) full_doc) atlantis) =
    inr (error_dict (fetch_error_msg no_host)) /\
  ((fetch_error_msg no_host = blank_city_msg /\
    Forall (fun c => is_space c = true) atlantis) \/
   (exists x, fetch_error_msg no_host = fetch_error_msg x) \/
   (exists x, fetch_error_msg no_host = parse_error_msg x)).
Proof.
  split; [vm_compute; reflexivity|].
  apply (WeatherExtra.get_weather_error_message decode_ascii (loads_of [full_doc]) str_scalar
           (serve nairobi_url (Some 200) full_doc) atlantis).
  vm_compute. reflexivity.
Defined.

(** The same city on two networks: the same single request. *)
Lemma get_weather_distinct_requests_witness :
  snd (get_weather decode_ascii (loads_of [full_doc]) str_scalar
         (serve nairobi_url (Some 200) full_doc) nairobi) = [(nairobi_url, 10)] /\
  snd (get_weather decode_ascii (loads_of [full_doc]) str_scalar
         (serve_only nairobi_url (Some 500) full_doc) nairobi) = [(nairobi_url, 10)] /\
  nairobi = nairobi.
Proof.
  split; [vm_compute; reflexivity|]. split; [vm_compute; reflexivity|].
  apply (WeatherExtra.get_weather_distinct_requests decode_ascii (loads_of [full_doc])
           str_scalar (serve nairobi_url (Some 200) full_doc)
           (serve_only nairobi_url (Some 500) full_doc) nairobi nairobi nairobi_url 10 10).
  - apply py_chars. reflexivity.
  - apply py_chars. reflexivity.
  - vm_compute. reflexivity.
  - vm_compute. reflexivity.
Defined.

Import Driver DriverSample.

(** Two non-final events and then the end of the stream: three requests. *)
Lemma call_agent_async_exhausts_witness :
  anext_calls (call_agent_async query (stream [tool_call_event; tool_call_event]) uid sid)
    = 3%nat /\
  stdout (call_agent_async query (stream [tool_call_event; tool_call_event]) uid sid) =
    [start_line query; response_line (Some no_final_response)].
Proof.
  apply (DriverExtra.call_agent_async_exhausts query
           (stream [tool_call_event; tool_call_event]) uid sid).
  repeat constructor.
Defined.

Import Orchestration OrchestrationFacts.

(** An ADK whose [create_session] hands back the number of calls made so
    far, one whose [create_session] refuses, a stream answering every
    question with a tool call and a final answer, and one that fails
    after a tool call. *)
Definition cs_ok : list Call -> nat -> pystr -> pystr -> pystr -> exc + nat :=
  fun h _ _ _ _ => inr (List.length h).

Definition already_exists : exc :=
  mk_builtin_exc "AlreadyExistsError" []
    (lit "Session with id session_001 already exists.").

Definition cs_refuse : list Call -> nat -> pystr -> pystr -> pystr -> exc + nat :=
  fun _ _ _ _ _ => inl already_exists.

Definition ra_ok : list Call -> RunnerObj -> pystr -> pystr -> Content ->
                   (list Event * option exc)%type :=
  fun _ _ _ _ _ => ([tool_call_event; sunny_final], None).

Definition quota : exc :=
  mkExc (lit "RateLimitError")
    (map lit ["litellm.exceptions.RateLimitError"; "builtins.Exception";
              "builtins.BaseException"; "builtins.object"]%string)
    (lit "quota exceeded").

Definition ra_fail : list Call -> RunnerObj -> pystr -> pystr -> Content ->
                     (list Event * option exc)%type :=
  fun _ _ _ _ _ => ([tool_call_event], Some quota).

Lemma main_raises_only_adk_witness :
  fst (main cs_refuse ra_ok start_state) = inl already_exists /\
  from_adk cs_refuse ra_ok already_exists.
Proof.
  split; [reflexivity|].
  apply (proj2 (main_raises_only_adk cs_refuse ra_ok start_state already_exists)).
  reflexivity.
Defined.

(** The state after a first successful initialisation. *)
Definition st_ready : St :=
  mkSt (mkGlobals (Some 0%nat) (Some 1%nat) (Some r0)) 1 init_calls
    [session_line; runner_line].

(** A second initialisation asks service 0 for the same session again. *)
Lemma init_default_runner_reuses_service_witness :
  calls (snd (init_default_runner cs_ok st_ready)) =
  init_calls ++ [CreateSession 0 APP_NAME USER_ID SESSION_ID; NewRunner r0].
Proof.
  destruct (init_default_runner_reuses_service cs_ok st_ready 0 eq_refl) as (_ & _ & H).
  rewrite H. reflexivity.
Defined.

Lemma init_default_runner_failure_witness :
  runner (globals (snd (init_default_runner cs_refuse start_state))) = None /\
  out (snd (init_default_runner cs_refuse start_state)) = [].
Proof.
  destruct (init_default_runner_failure cs_refuse start_state already_exists eq_refl)
    as (_ & Hr & Ho).
  rewrite Hr, Ho. split; reflexivity.
Defined.

(** The whole conversation: eight lines, the answer to each question. *)
Lemma main_success_witness :
  out (snd (main cs_ok ra_ok start_state)) =
  [session_line; runner_line;
   start_line q_nairobi; response_line (Some sunny);
   start_line q_new_york; response_line (Some sunny);
   start_line q_london; response_line (Some sunny)].
Proof.
  pose proof (main_success cs_ok ra_ok 1 eq_refl (fun _ _ _ _ _ => eq_refl)) as H.
  cbv zeta in H. rewrite H. reflexivity.
Defined.

Lemma main_init_failure_witness :
  out (snd (main cs_refuse ra_ok start_state)) =
  [lit "Error occurred in main(): Session with id session_001 already exists."].
Proof.
  rewrite (main_init_failure cs_refuse ra_ok already_exists eq_refl). reflexivity.
Defined.

Lemma main_first_turn_failure_witness :
  out (snd (main cs_ok ra_fail start_state)) =
  [session_line; runner_line; start_line q_nairobi;
   lit "Error occurred in main(): quota exceeded"].
Proof.
  rewrite (main_first_turn_failure cs_ok ra_fail 1 [tool_call_event] quota eq_refl eq_refl
             eq_refl).
  reflexivity.
Defined.

End ExtraChecks.
